(** * lmdbstore: a single-writer dispatcher on top of lmdb

    A shallow embedding of [lmdbstore.go].  The package wraps one
    [lmdb.Env]: [NewLmdb] opens it, creates the configured named databases
    and spawns one "updater" goroutine; [Db.Put], [Db.Del] and [Db.Drop]
    hand a transaction function to that goroutine over an unbuffered
    channel, [Db.Get] and [Db.GetAndMarshal] read through [Env.View].

    The file has three layers:
    - Go data (slices, errors, interface values, channels) and the part of
      lmdb the package calls, as a finite map per named database;
    - the package's functions, in a state monad over a [World] (the
      environment, the heap of [Db] objects, the updater goroutine and a
      trace of the calls made to the engine and to the codec);
    - the goroutines of the package as a step relation ([Module Sched]),
      for what is said about the updater loop and [Close]. *)

From Stdlib Require Import ZArith List Lia.
From stdpp Require Import base option list gmap strings.

Local Open Scope Z_scope.
Local Open Scope nat_scope.
Local Open Scope string_scope.

(** ** Go data *)

(** A [[]byte]; the nil slice and the empty slice are both [[]]: the
    package only ever takes their [len] and copies them. *)
Abbreviation bytes := (list Byte.byte).

#[global] Instance byte_eq_dec : EqDecision Byte.byte := Byte.byte_eq_dec.
#[global] Instance byte_countable : Countable Byte.byte :=
  inj_countable Byte.to_N Byte.of_N Byte.of_to_N.

(** [make([]byte, n)]: [n] zero bytes. *)
Definition make (n : nat) : bytes := replicate n Byte.x00.

(** The builtin [copy(dst, src)]: overwrites the first
    [min(len(dst), len(src))] elements of [dst]; [dst] keeps its length.
    The result is the content of [dst] after the call. *)
Definition copy (dst src : bytes) : bytes :=
  take (length dst) src ++ drop (length src) dst.

(** The error numbers of lmdb the model can produce, and any other. *)
Inductive Errno :=
| NotFound                (* MDB_NOTFOUND *)
| BadDBI                  (* MDB_BAD_DBI *)
| BadValSize              (* MDB_BAD_VALSIZE *)
| OtherErrno (code : Z).

(** A Go [error] value; the nil error is [None] of [option error].
    [errors_New] stands for [errors.New] and [fmt.Errorf], [OpError] for
    lmdb's [*lmdb.OpError]. *)
Inductive error :=
| errors_New (msg : string)
| OpError (op : string) (errno : Errno).

(** [lmdb.IsNotFound]. *)
Definition IsNotFound (err : option error) : bool :=
  match err with
  | Some (OpError _ NotFound) => true
  | _ => false
  end.

(** The dynamic values an [interface{}] argument of [Put] can hold. *)
#[warnings="-register-all"]
Inductive value :=
| VNil
| VBytes (b : bytes)
| VInt (z : Z)
| VString (s : string)
| VStruct (fields : list value).

(** [func(v interface{}) ([]byte, error)] *)
Definition MarshalFn := value -> bytes * option error.

(** [func(data []byte, v interface{}) error], called with a pointer: the
    function gets the pointee and returns what it leaves there. *)
Definition UnmarshalFn := bytes -> value -> value * option error.

(** A channel value: [None] is the nil channel, [Some c] the channel made
    by the [c]-th [make(chan ...)]. *)
Definition chan := option nat.

Definition DBI := nat.
Definition ptr := nat.

(** ** The structs of the package *)

Module Db.
Record t := mk {
  dbi : DBI;
  lmdbEnv : ptr;
  updateWorkerChan : chan;
  marshal : option MarshalFn;
  unmarshal : option UnmarshalFn;
}.
End Db.

Module DbConfig.
Record t := mk {
  DbName : string;
  Marshal : option MarshalFn;
  Unmarshal : option UnmarshalFn;
}.
End DbConfig.

Module LmdbEnvConfig.
Record t := mk {
  OpenPath : string;
  OpenFlag : Z;
  OpenFSMode : Z;
  MapSize : Z;
  MaxReaders : Z;
  Databases : list DbConfig.t;
  Marshal : option MarshalFn;
  Unmarshal : option UnmarshalFn;
}.
End LmdbEnvConfig.

Module LmdbEnv.
Record t := mk {
  LmdbEnv : ptr;
  databases : gmap string ptr;   (* map[string]*Db *)
  updateWorkerChan : chan;
  quitChan : chan;
  marshal : option MarshalFn;
  unmarshal : option UnmarshalFn;
}.
End LmdbEnv.

(** [DefaultLmdbConfig]; the two msgpack functions are the imported
    [msgpack.MarshalAsArray] and [msgpack.UnmarshalAsArray]. *)
Definition DefaultLmdbConfig (msgpack_MarshalAsArray : MarshalFn)
    (msgpack_UnmarshalAsArray : UnmarshalFn) : LmdbEnvConfig.t :=
  {| LmdbEnvConfig.OpenPath := ".";
     LmdbEnvConfig.OpenFlag := 0%Z;
     LmdbEnvConfig.OpenFSMode := 420%Z;        (* 0644 *)
     LmdbEnvConfig.MapSize := Z.shiftl 1 30;
     LmdbEnvConfig.MaxReaders := 1%Z;
     LmdbEnvConfig.Databases := [DbConfig.mk "default" None None];
     LmdbEnvConfig.Marshal := Some msgpack_MarshalAsArray;
     LmdbEnvConfig.Unmarshal := Some msgpack_UnmarshalAsArray |}.

(** ** The part of lmdb the package calls

    One environment holds the named databases; each is a table from keys to
    values (none is opened with [DupSort], so a key has one value).
    [names] maps the name of a database to its handle, [tables] a handle to
    its content.  [synced] and [closed] record [Env.Sync] and
    [Env.Close]. *)
Record Engine := mkEngine {
  names : gmap string DBI;
  tables : gmap DBI (gmap bytes bytes);
  synced : bool;
  closed : bool;
}.

(** What the engine answers to the set-up calls of [NewLmdb] and to a
    store that passed the size checks ([f_Put]: map full, transaction
    full, ...): [None] is success.  The package checks each of them, so
    each may fail. *)
Record Faults := mkFaults {
  f_NewEnv : option Errno;
  f_SetMapSize : Z -> option Errno;
  f_SetMaxDBs : nat -> option Errno;
  f_SetMaxReaders : Z -> option Errno;
  f_Open : string -> Z -> Z -> option Errno;
  f_CreateDBI : string -> option Errno;
  f_Put : DBI -> bytes -> bytes -> option Errno;
}.

Definition no_faults : Faults :=
  mkFaults None (fun _ => None) (fun _ => None) (fun _ => None)
           (fun _ _ _ => None) (fun _ => None) (fun _ _ _ => None).

(** The largest key lmdb stores (its default build), and the largest
    value of a database without [DupSort]. *)
Definition MaxKeySize : nat := 511.
Definition MaxDataSize : Z := 4294967295.

(** A key [mdb_put] accepts: 1 to [MaxKeySize] bytes; a value it accepts. *)
Definition key_ok (key : bytes) : bool :=
  (1 <=? length key)%nat && (length key <=? MaxKeySize)%nat.
Definition val_ok (val : bytes) : bool :=
  (Z.of_nat (length val) <=? MaxDataSize)%Z.

(** [mdb_get]: the value at [key], or [NotFound]; a key of length 0 is
    refused with [BadValSize]. *)
Definition mdb_get (e : Engine) (d : DBI) (key : bytes) : bytes * option error :=
  match tables e !! d with
  | None => ([], Some (OpError "mdb_get" BadDBI))
  | Some t =>
      if (length key =? 0)%nat then ([], Some (OpError "mdb_get" BadValSize))
      else
        match t !! key with
        | None => ([], Some (OpError "mdb_get" NotFound))
        | Some v => (v, None)
        end
  end.

(** [mdb_put] with flags 0: inserts or overwrites; a key of length 0 or
    over [MaxKeySize] and a value over [MaxDataSize] are refused with
    [BadValSize]. *)
Definition mdb_put (e : Engine) (d : DBI) (key val : bytes) : Engine * option error :=
  match tables e !! d with
  | None => (e, Some (OpError "mdb_put" BadDBI))
  | Some t =>
      if negb (key_ok key && val_ok val) then (e, Some (OpError "mdb_put" BadValSize))
      else
        (mkEngine (names e) (<[d := <[key := val]> t]> (tables e))
                  (synced e) (closed e), None)
  end.

(** [mdb_del]: without [DupSort] the value argument is ignored; deleting a
    key that is not there is [NotFound]; a key of length 0 is refused with
    [BadValSize]. *)
Definition mdb_del (e : Engine) (d : DBI) (key val : bytes) : Engine * option error :=
  match tables e !! d with
  | None => (e, Some (OpError "mdb_del" BadDBI))
  | Some t =>
      if (length key =? 0)%nat then (e, Some (OpError "mdb_del" BadValSize))
      else
        match t !! key with
        | None => (e, Some (OpError "mdb_del" NotFound))
        | Some _ =>
            (mkEngine (names e) (<[d := delete key t]> (tables e))
                      (synced e) (closed e), None)
        end
  end.

(** [mdb_drop] with [del = false]: empties the database, keeps the handle. *)
Definition mdb_drop (e : Engine) (d : DBI) (del : bool) : Engine * option error :=
  match tables e !! d with
  | None => (e, Some (OpError "mdb_drop" BadDBI))
  | Some t =>
      (mkEngine (names e)
                (if del then delete d (tables e) else <[d := ∅]> (tables e))
                (synced e) (closed e), None)
  end.

(** [mdb_dbi_open] with [MDB_CREATE]: the handle of a database that is
    already open under this name, else a fresh handle on an empty table
    (handles 0 and 1 are lmdb's own). *)
Definition mdb_dbi_open (e : Engine) (name : string) : Engine * DBI :=
  match names e !! name with
  | Some d => (e, d)
  | None =>
      let d := 2 + size (names e) in
      (mkEngine (<[name := d]> (names e)) (<[d := ∅]> (tables e))
                (synced e) (closed e), d)
  end.

(** ** The world the package runs in *)

(** The calls the package makes that something outside can see. *)
Inductive event :=
| EvNewEnv
| EvSetMapSize (size : Z)
| EvSetMaxDBs (n : nat)
| EvSetMaxReaders (n : Z)
| EvOpen (path : string) (flag mode : Z)
| EvCreateDBI (name : string)
| EvGo (updates quit : chan)          (* the updater goroutine is started *)
| EvMarshal (v : value)
| EvUnmarshal (data : bytes).

Record World := mkWorld {
  engine : Engine;
  faults : Faults;
  heap : list Db.t;        (* the [&Db{...}] objects; a pointer is an index *)
  chans : nat;             (* how many channels were made *)
  worker : option (chan * chan);
                           (* the updater goroutine, if started: the two
                              channels its select waits on *)
  trace : list event;
}.

Definition set_engine (e : Engine) (w : World) : World :=
  mkWorld e (faults w) (heap w) (chans w) (worker w) (trace w).

Definition emit (ev : event) (w : World) : World :=
  mkWorld (engine w) (faults w) (heap w) (chans w) (worker w) (trace w ++ [ev]).

(** The updater leaves its select ([None]) or comes back to it. *)
Definition set_worker (wk : option (chan * chan)) (w : World) : World :=
  mkWorld (engine w) (faults w) (heap w) (chans w) wk (trace w).

(** How a call ends: it returns, it panics (the program dies), or it blocks
    for ever on a channel. *)
Inductive outcome (A : Type) :=
| Done (a : A) (w : World)
| Panic
| Blocked.
Arguments Done {A} a w.
Arguments Panic {A}.
Arguments Blocked {A}.

Definition M (A : Type) : Type := World -> outcome A.

Definition ret {A} (a : A) : M A := fun w => Done a w.

Definition bind {A B} (m : M A) (k : A -> M B) : M B :=
  fun w =>
    match m w with
    | Done a w' => k a w'
    | Panic => Panic
    | Blocked => Blocked
    end.

Declare Scope go_scope.
Delimit Scope go_scope with go.
Notation "x <- m ;; k" := (bind m (fun x => k))
  (at level 100, m at next level, right associativity) : go_scope.
Notation "m ;;; k" := (bind m (fun _ => k))
  (at level 100, right associativity) : go_scope.
Local Open Scope go_scope.

Definition get_engine : M Engine := fun w => Done (engine w) w.
Definition put_engine (e : Engine) : M unit := fun w => Done tt (set_engine e w).
Definition log (ev : event) : M unit := fun w => Done tt (emit ev w).

(** The methods of [*lmdb.Txn], on the transaction's view of the engine. *)
Definition txn_Get (d : DBI) (key : bytes) : M (bytes * option error) :=
  e <- get_engine ;; ret (mdb_get e d key).

Definition txn_Put (d : DBI) (key val : bytes) (flags : Z) : M (option error) :=
  e <- get_engine ;;
  let '(e', err) := mdb_put e d key val in
  if err is Some _ then ret err
  else
    fun w =>
      match f_Put (faults w) d key val with
      | Some errno => Done (Some (OpError "mdb_put" errno)) w
      | None => Done None (set_engine e' w)
      end.

Definition txn_Del (d : DBI) (key val : bytes) : M (option error) :=
  e <- get_engine ;;
  let '(e', err) := mdb_del e d key val in
  put_engine e' ;;; ret err.

Definition txn_Drop (d : DBI) (del : bool) : M (option error) :=
  e <- get_engine ;;
  let '(e', err) := mdb_drop e d del in
  put_engine e' ;;; ret err.

Definition txn_CreateDBI (name : string) : M (DBI * option error) :=
  log (EvCreateDBI name) ;;;
  fun w =>
    match f_CreateDBI (faults w) name with
    | Some errno => Done (0, Some (OpError "mdb_dbi_open" errno)) w
    | None =>
        let '(e', d) := mdb_dbi_open (engine w) name in
        Done (d, None) (set_engine e' w)
    end.

(** [lmdb.TxnOp]: [func(txn *Txn) error]. *)
Definition TxnOp := M (option error).

(** [Env.Update] and [Env.UpdateLocked]: run [op] in a write transaction;
    commit when it returns nil, abort (the engine is as before) when it
    returns an error.  On an environment that was closed the transaction
    cannot begin: the program dies in [mdb_txn_begin]. *)
Definition UpdateLocked (op : TxnOp) : M (option error) :=
  fun w =>
    if closed (engine w) then Panic
    else
      match op w with
      | Done None w' => Done None w'
      | Done (Some err) w' => Done (Some err) (set_engine (engine w) w')
      | Panic => Panic
      | Blocked => Blocked
      end.

Definition Update := UpdateLocked.

(** [Env.View]: run [op] in a read transaction; nothing it does to the
    engine stays. *)
Definition View {A} (op : M A) : M A :=
  fun w =>
    match op w with
    | Done a w' => Done a (set_engine (engine w) w')
    | Panic => Panic
    | Blocked => Blocked
    end.

(** ** The package *)

(** [make(chan T)]: a fresh, non-nil, unbuffered channel. *)
Definition make_chan : M chan :=
  fun w => Done (Some (chans w))
                (mkWorld (engine w) (faults w) (heap w) (S (chans w)) (worker w) (trace w)).

(** [&Db{...}]: a new object; its address is the next free index. *)
Definition new_Db (d : Db.t) : M ptr :=
  fun w => Done (length (heap w))
                (mkWorld (engine w) (faults w) (heap w ++ [d]) (chans w) (worker w) (trace w)).

(** [db.dbi = d] through the pointer [p]. *)
Definition set_dbi (p : ptr) (d : DBI) : M unit :=
  fun w =>
    match heap w !! p with
    | None => Panic
    | Some o =>
        let o' := Db.mk d (Db.lmdbEnv o) (Db.updateWorkerChan o) (Db.marshal o) (Db.unmarshal o) in
        Done tt (mkWorld (engine w) (faults w) (<[p := o']> (heap w)) (chans w)
                         (worker w) (trace w))
    end.

(** [go func() { ... }()]: from here on the updater goroutine waits in its
    [select] on the two channels of the handler. *)
Definition go_worker (updates quit : chan) : M unit :=
  log (EvGo updates quit) ;;;
  fun w => Done tt (mkWorld (engine w) (faults w) (heap w) (chans w)
                            (Some (updates, quit)) (trace w)).

(** A set-up call on [*lmdb.Env]: it is made, and the engine answers. *)
Definition env_call (ev : event) (op : string) (answer : Faults -> option Errno)
  : M (option error) :=
  log ev ;;;
  fun w => Done (OpError op <$> answer (faults w)) w.

Definition lmdb_NewEnv : M (ptr * option error) :=
  err <- env_call EvNewEnv "mdb_env_create" f_NewEnv ;; ret (0, err).
Definition Env_SetMapSize (size : Z) : M (option error) :=
  env_call (EvSetMapSize size) "mdb_env_set_mapsize" (fun f => f_SetMapSize f size).
Definition Env_SetMaxDBs (n : nat) : M (option error) :=
  env_call (EvSetMaxDBs n) "mdb_env_set_maxdbs" (fun f => f_SetMaxDBs f n).
Definition Env_SetMaxReaders (n : Z) : M (option error) :=
  env_call (EvSetMaxReaders n) "mdb_env_set_maxreaders" (fun f => f_SetMaxReaders f n).
(** [Env.Open]: when the engine accepts, the environment is open. *)
Definition opened (e : Engine) : Engine :=
  mkEngine (names e) (tables e) (synced e) false.

Definition Env_Open (path : string) (flag mode : Z) : M (option error) :=
  err <- env_call (EvOpen path flag mode) "mdb_env_open" (fun f => f_Open f path flag mode) ;;
  if err is Some _ then ret err
  else
    e <- get_engine ;;
    put_engine (opened e) ;;;
    ret None.

(** The [for _, dbConfig := range config.Databases] loop of [NewLmdb]:
    each round allocates a [Db] with the handler's channel and the
    handler's [marshal] and [unmarshal], creates the named database in a
    write transaction of its own and stores the pointer under the name. *)
Fixpoint create_databases (lmdbEnv : ptr) (lmdbHandler : LmdbEnv.t)
    (dbs : list DbConfig.t) : M (option LmdbEnv.t * option error) :=
  match dbs with
  | [] => ret (Some lmdbHandler, None)
  | dbConfig :: rest =>
      db <- new_Db (Db.mk 0 lmdbEnv
                          (LmdbEnv.updateWorkerChan lmdbHandler)
                          (LmdbEnv.marshal lmdbHandler)
                          (LmdbEnv.unmarshal lmdbHandler)) ;;
      err <- Update (r <- txn_CreateDBI (DbConfig.DbName dbConfig) ;;
                     set_dbi db (fst r) ;;;
                     ret (snd r)) ;;
      match err with
      | Some _ =>
          ret (None, Some (errors_New ("error creating database "
                                       +:+ DbConfig.DbName dbConfig)))
      | None =>
          create_databases lmdbEnv
            (LmdbEnv.mk (LmdbEnv.LmdbEnv lmdbHandler)
                        (<[DbConfig.DbName dbConfig := db]> (LmdbEnv.databases lmdbHandler))
                        (LmdbEnv.updateWorkerChan lmdbHandler)
                        (LmdbEnv.quitChan lmdbHandler)
                        (LmdbEnv.marshal lmdbHandler)
                        (LmdbEnv.unmarshal lmdbHandler))
            rest
      end
  end.

(** [NewLmdb].  The struct literal of the handler sets [LmdbEnv],
    [marshal], [unmarshal], [updateWorkerChan] and [databases]; [quitChan]
    is not in it and keeps the zero value of a channel, nil. *)
Definition NewLmdb (config : LmdbEnvConfig.t) : M (option LmdbEnv.t * option error) :=
  if (length (LmdbEnvConfig.Databases config) <? 1)%nat then
    ret (None, Some (errors_New "no databases is setup"))
  else
    r <- lmdb_NewEnv ;;
    let lmdbEnv := fst r in
    if snd r is Some err then ret (None, Some err) else
    err <- Env_SetMapSize (LmdbEnvConfig.MapSize config) ;;
    if err is Some err then ret (None, Some err) else
    err <- Env_SetMaxDBs (length (LmdbEnvConfig.Databases config)) ;;
    if err is Some err then ret (None, Some err) else
    err <- Env_SetMaxReaders (LmdbEnvConfig.MaxReaders config) ;;
    if err is Some err then ret (None, Some err) else
    err <- Env_Open (LmdbEnvConfig.OpenPath config) (LmdbEnvConfig.OpenFlag config)
                    (LmdbEnvConfig.OpenFSMode config) ;;
    if err is Some err then ret (None, Some err) else
    c <- make_chan ;;
    let lmdbHandler :=
      LmdbEnv.mk lmdbEnv ∅ c None
                 (LmdbEnvConfig.Marshal config) (LmdbEnvConfig.Unmarshal config) in
    r <- create_databases lmdbEnv lmdbHandler (LmdbEnvConfig.Databases config) ;;
    match r with
    | (Some lmdbHandler, None) =>
        go_worker (LmdbEnv.updateWorkerChan lmdbHandler) (LmdbEnv.quitChan lmdbHandler) ;;;
        ret (Some lmdbHandler, None)
    | _ => ret r
    end.

(** [GetSingleDatabase]: [len] of the map, then the first entry the
    [range] yields. *)
Definition GetSingleDatabase (l : LmdbEnv.t) : option ptr * option error :=
  if negb (size (LmdbEnv.databases l) =? 1)%nat then
    (None, Some (errors_New "number of databases configured LmdbEnv is not 1"))
  else
    match map_to_list (LmdbEnv.databases l) with
    | (_, v) :: _ => (Some v, None)
    | [] => (None, Some (errors_New "no database is configured in LmdbEnv"))
    end.

(** [GetDatabase]: the map lookup; a missing name gives nil. *)
Definition GetDatabase (l : LmdbEnv.t) (dbName : string) : option ptr :=
  LmdbEnv.databases l !! dbName.

(** [Close]: one send on [e.quitChan].  A send on a nil channel blocks for
    ever; on a channel the updater's select waits on, the updater takes the
    value and runs [Sync(true)] and [Close()] on the environment. *)
Definition Close (e : LmdbEnv.t) : M unit :=
  fun w =>
    match LmdbEnv.quitChan e, worker w with
    | Some q, Some (_, Some q') =>
        if decide (q = q') then
          Done tt (set_engine (mkEngine (names (engine w)) (tables (engine w))
                                        true true) w)
        else Blocked
    | _, _ => Blocked
    end.

(** [UpdateTxn]: make the reply channel, send the request on
    [s.updateWorkerChan], wait for the reply.  With the updater waiting in
    its select on that channel it takes the request, runs
    [UpdateLocked(op)] and replies (see [UpdateTxn_served]).  While it
    runs [op] the updater is not in its select: a send [op] itself makes
    on the channel finds no receiver.  With no goroutine receiving on the
    channel, or a nil channel, the send blocks for ever. *)
Definition UpdateTxn (s : Db.t) (op : TxnOp) : M (option error) :=
  res <- make_chan ;;
  fun w =>
    match Db.updateWorkerChan s, worker w with
    | Some c, Some (Some c', _) =>
        if decide (c = c') then
          match UpdateLocked op (set_worker None w) with
          | Done err w' => Done err (set_worker (worker w) w')
          | Panic => Panic
          | Blocked => Blocked
          end
        else Blocked
    | _, _ => Blocked
    end.

(** A call of the function value [s.marshal]; calling nil panics. *)
Definition call_marshal (f : option MarshalFn) (v : value) : M (bytes * option error) :=
  match f with
  | None => fun _ => Panic
  | Some f => log (EvMarshal v) ;;; ret (f v)
  end.

(** A call [s.unmarshal(b, &dest)]. *)
Definition call_unmarshal (f : option UnmarshalFn) (b : bytes) (dest : value)
  : M (value * option error) :=
  match f with
  | None => fun _ => Panic
  | Some f => log (EvUnmarshal b) ;;; ret (f b dest)
  end.

(** The transaction function of [Put]: a [[]byte] is stored as it is, any
    other value goes through [s.marshal]. *)
Definition Put_op (s : Db.t) (key : bytes) (value : value) : TxnOp :=
  match value with
  | VBytes v => txn_Put (Db.dbi s) key v 0
  | v =>
      r <- call_marshal (Db.marshal s) v ;;
      if snd r is Some err then ret (Some err)
      else txn_Put (Db.dbi s) key (fst r) 0
  end.

Definition Put (s : Db.t) (key : bytes) (value : value) : M (option error) :=
  UpdateTxn s (Put_op s key value).

Definition zeroLengthBytes : bytes := make 0.

Definition Del (s : Db.t) (key : bytes) : M (option error) :=
  UpdateTxn s (txn_Del (Db.dbi s) key zeroLengthBytes).

Definition Drop (s : Db.t) : M (option error) :=
  UpdateTxn s (txn_Drop (Db.dbi s) false).

(** [Get].  The named result [b] is nil when the function starts and is
    never assigned: the closure only calls [copy(b, bOri)], which writes
    into the [len(b)] elements [b] already has. *)
Definition Get (s : Db.t) (key : bytes) : M (bytes * option error) :=
  let b : bytes := [] in
  View (r <- txn_Get (Db.dbi s) key ;;
        let bOri := fst r in
        if snd r is Some err then ret (b, Some err)
        else
          let b := copy b bOri in
          ret (b, None)).

(** [GetAndMarshal]; the pair is the destination after the call and the
    error returned. *)
Definition GetAndMarshal (s : Db.t) (key : bytes) (dest : value)
  : M (value * option error) :=
  View (r <- txn_Get (Db.dbi s) key ;;
        let bOri := fst r in
        if snd r is Some err then ret (dest, Some err)
        else if (length bOri =? 0)%nat then
          ret (dest, Some (errors_New "zero length bytes from database"))
        else
          let b := make (length bOri) in
          let b := copy b bOri in
          call_unmarshal (Db.unmarshal s) b dest).

(** ** The goroutines

    The updater goroutine started by [NewLmdb] and the goroutines that call
    [UpdateTxn] (so [Put], [Del], [Drop]) and [Close], one step at a time.
    Channels are unbuffered: a send and a receive on the same non-nil
    channel happen together, and nothing ever happens on a nil channel. *)
Module Sched.

(** Where the updater goroutine is in
    [for { select { case op := <-updateWorkerChan: ...
                    case <-quitChan: ... } }]. *)
Inductive worker_pc :=
| AtSelect                                   (* waiting in the select *)
| GotOp (op : TxnOp) (res : chan)            (* received, before UpdateLocked *)
| InTxn (op : TxnOp) (res : chan)            (* inside UpdateLocked(op.op) *)
| Replying (err : option error) (res : chan) (* op.res <- err *)
| GotQuit                                    (* quit case, before Sync(true) *)
| AfterSync                                  (* before lmdbEnv.Close() *)
| AfterClose                                 (* before UnlockOSThread() *)
| Dead (op : TxnOp).                         (* op.op panicked: the program is over *)

(** Where a calling goroutine is, in [UpdateTxn] or in [Close]. *)
Inductive caller_pc :=
| SendingOp (ch : chan) (op : TxnOp) (res : chan)   (* s.updateWorkerChan <- &dbOp{op, res} *)
| AwaitingRes (res : chan)                          (* err := <-res *)
| Returned (err : option error)                     (* UpdateTxn has returned err *)
| SendingQuit (ch : chan)                           (* e.quitChan <- false *)
| CloseReturned.                                    (* Close has returned *)

Record state := mkState {
  world : World;
  wpc : worker_pc;
  callers : list caller_pc;
  received : list TxnOp;     (* requests in the order the updater received them *)
  executed : list TxnOp;     (* requests in the order their transaction ended *)
  write_txns : nat;          (* write transactions open on the environment *)
}.

Definition init (w : World) : state := mkState w AtSelect [] [] [] 0.

Definition set_synced (w : World) : World :=
  set_engine (mkEngine (names (engine w)) (tables (engine w)) true (closed (engine w))) w.
Definition set_closed (w : World) : World :=
  set_engine (mkEngine (names (engine w)) (tables (engine w)) (synced (engine w)) true) w.

Section Steps.
(** The handler the goroutine's closure refers to. *)
Variable l : LmdbEnv.t.

Inductive step : state -> state -> Prop :=
| call_UpdateTxn st (s : Db.t) (op : TxnOp) res w' :
    make_chan (world st) = Done res w' ->
    step st (mkState w' (wpc st)
                     (callers st ++ [SendingOp (Db.updateWorkerChan s) op res])
                     (received st) (executed st) (write_txns st))
| call_Close st :
    step st (mkState (world st) (wpc st)
                     (callers st ++ [SendingQuit (LmdbEnv.quitChan l)])
                     (received st) (executed st) (write_txns st))
| recv_op st i c op res :
    wpc st = AtSelect ->
    LmdbEnv.updateWorkerChan l = Some c ->
    callers st !! i = Some (SendingOp (Some c) op res) ->
    step st (mkState (set_worker None (world st)) (GotOp op res)
                     (<[i := AwaitingRes res]> (callers st))
                     (received st ++ [op]) (executed st) (write_txns st))
| recv_quit st i q :
    wpc st = AtSelect ->
    LmdbEnv.quitChan l = Some q ->
    callers st !! i = Some (SendingQuit (Some q)) ->
    step st (mkState (set_worker None (world st)) GotQuit
                     (<[i := CloseReturned]> (callers st))
                     (received st) (executed st) (write_txns st))
| txn_begin st op res :
    wpc st = GotOp op res ->
    step st (mkState (world st) (InTxn op res) (callers st)
                     (received st) (executed st) (S (write_txns st)))
| txn_end st op res err w' :
    wpc st = InTxn op res ->
    UpdateLocked op (world st) = Done err w' ->
    step st (mkState w' (Replying err res) (callers st)
                     (received st) (executed st ++ [op]) (pred (write_txns st)))
| txn_panic st op res :
    wpc st = InTxn op res ->
    UpdateLocked op (world st) = Panic ->
    (* the deferred abort of UpdateLocked closes the transaction *)
    step st (mkState (world st) (Dead op) (callers st)
                     (received st) (executed st) (pred (write_txns st)))
| reply st i r err :
    wpc st = Replying err (Some r) ->
    callers st !! i = Some (AwaitingRes (Some r)) ->
    step st (mkState (set_worker (Some (LmdbEnv.updateWorkerChan l, LmdbEnv.quitChan l))
                                 (world st))
                     AtSelect
                     (<[i := Returned err]> (callers st))
                     (received st) (executed st) (write_txns st))
| quit_sync st :
    wpc st = GotQuit ->
    step st (mkState (set_synced (world st)) AfterSync (callers st)
                     (received st) (executed st) (write_txns st))
| quit_close st :
    wpc st = AfterSync ->
    step st (mkState (set_closed (world st)) AfterClose (callers st)
                     (received st) (executed st) (write_txns st))
| quit_unlock st :
    (* no return and no break follows: the for loop goes round again *)
    wpc st = AfterClose ->
    step st (mkState (set_worker (Some (LmdbEnv.updateWorkerChan l, LmdbEnv.quitChan l))
                                 (world st))
                     AtSelect (callers st)
                     (received st) (executed st) (write_txns st)).

Definition reachable (w : World) (st : state) : Prop := rtc step (init w) st.
End Steps.

(** The request the updater holds and has not finished. *)
Definition in_flight (pc : worker_pc) : list TxnOp :=
  match pc with
  | GotOp op _ | InTxn op _ | Dead op => [op]
  | _ => []
  end.

Definition in_txn (pc : worker_pc) : bool :=
  match pc with InTxn _ _ => true | _ => false end.

Definition in_quit_case (pc : worker_pc) : bool :=
  match pc with GotQuit | AfterSync | AfterClose => true | _ => false end.

End Sched.

(** ** Notions the statements use *)

(** A handle the package's functions can work with: the updater goroutine
    receives on its channel, its database is open in the environment and
    the environment was not closed.  [NewLmdb] hands out such handles
    ([NewLmdb_handle_ok]). *)
Definition handle_ok (w : World) (s : Db.t) : bool :=
  match Db.updateWorkerChan s, worker w with
  | Some c, Some (Some c', _) => bool_decide (c = c')
  | _, _ => false
  end
  && bool_decide (is_Some (tables (engine w) !! Db.dbi s))
  && negb (closed (engine w)).

(** Every name of the environment leads to a table. *)
Definition engine_wf (e : Engine) : Prop :=
  ∀ name d, names e !! name = Some d → is_Some (tables e !! d).

(** The map the loop of [NewLmdb] builds when no round fails, as a
    function of the list alone: the [i]-th entry is bound to the [i]-th
    object allocated, [n] being the address of the first. *)
Fixpoint bind_names (n : ptr) (dbs : list DbConfig.t) (m : gmap string ptr)
  : gmap string ptr :=
  match dbs with
  | [] => m
  | dbConfig :: rest => bind_names (S n) rest (<[DbConfig.DbName dbConfig := n]> m)
  end.

(** The engine answers no set-up call of [NewLmdb config] with an error. *)
Definition setup_succeeds (f : Faults) (config : LmdbEnvConfig.t) : Prop :=
  f_NewEnv f = None
  ∧ f_SetMapSize f (LmdbEnvConfig.MapSize config) = None
  ∧ f_SetMaxDBs f (length (LmdbEnvConfig.Databases config)) = None
  ∧ f_SetMaxReaders f (LmdbEnvConfig.MaxReaders config) = None
  ∧ f_Open f (LmdbEnvConfig.OpenPath config) (LmdbEnvConfig.OpenFlag config)
           (LmdbEnvConfig.OpenFSMode config) = None
  ∧ ∀ c, c ∈ LmdbEnvConfig.Databases config → f_CreateDBI f (DbConfig.DbName c) = None.

(** ** Concrete inputs for the examples *)

(** A fresh process: an empty environment that refuses nothing, no object,
    no channel, no goroutine. *)
Definition world0 : World :=
  mkWorld (mkEngine ∅ ∅ false false) no_faults [] 0 None [].

(** A codec that stores a string as its bytes and refuses anything else. *)
Definition text_marshal : MarshalFn :=
  fun v =>
    match v with
    | VString s => (String.list_byte_of_string s, None)
    | _ => ([], Some (errors_New "text_marshal: not a string"))
    end.
Definition text_unmarshal : UnmarshalFn :=
  fun data _ => (VString (String.string_of_list_byte data), None).

(** A second codec, to tell overrides apart. *)
Definition const_marshal : MarshalFn := fun _ => ([Byte.xff], None).
Definition const_unmarshal : UnmarshalFn := fun _ dest => (dest, None).

Definition key_k1 : bytes := String.list_byte_of_string "k1".

(** What [NewLmdb] returns and the world it leaves, for the examples. *)
Definition NewLmdb_handler (config : LmdbEnvConfig.t) (w : World) : LmdbEnv.t :=
  match NewLmdb config w with
  | Done (Some l, _) _ => l
  | _ => LmdbEnv.mk 0 ∅ None None None None
  end.

Definition NewLmdb_world (config : LmdbEnvConfig.t) (w : World) : World :=
  match NewLmdb config w with
  | Done _ w' => w'
  | _ => w
  end.

Definition deref (w : World) (p : ptr) : Db.t :=
  match heap w !! p with
  | Some s => s
  | None => Db.mk 0 0 None None None
  end.

(** [NewLmdb(DefaultLmdbConfig)] in a fresh process, and its one handle. *)
Definition default_config : LmdbEnvConfig.t :=
  DefaultLmdbConfig text_marshal text_unmarshal.
Definition world1 : World := NewLmdb_world default_config world0.
Definition handler1 : LmdbEnv.t := NewLmdb_handler default_config world0.
Definition db1 : Db.t := deref world1 0.

Definition blob123 : bytes := [Byte.x01; Byte.x02; Byte.x03].

(** The world after [Put(k1, blob123)], and after [Put(k1, []byte{})]. *)
Definition world2 : World :=
  match Put db1 key_k1 (VBytes blob123) world1 with
  | Done _ w => w
  | _ => world1
  end.

Definition world3 : World :=
  match Put db1 key_k1 (VBytes []) world1 with
  | Done _ w => w
  | _ => world1
  end.

(** No database at all. *)
Definition empty_config : LmdbEnvConfig.t :=
  LmdbEnvConfig.mk "." 0 420 (Z.shiftl 1 30) 1 []
                   (Some text_marshal) (Some text_unmarshal).

(** One database with a codec of its own, in an environment with
    another. *)
Definition override_config : LmdbEnvConfig.t :=
  LmdbEnvConfig.mk "." 0 420 (Z.shiftl 1 30) 1
                   [DbConfig.mk "a" (Some const_marshal) (Some const_unmarshal)]
                   (Some text_marshal) (Some text_unmarshal).

(** One database, no codec given anywhere. *)
Definition nocodec_config : LmdbEnvConfig.t :=
  LmdbEnvConfig.mk "." 0 420 (Z.shiftl 1 30) 1 [DbConfig.mk "a" None None] None None.

(** The name "a" twice, with "b" in between; and "a" twice alone. *)
Definition dup_config : LmdbEnvConfig.t :=
  LmdbEnvConfig.mk "." 0 420 (Z.shiftl 1 30) 1
                   [DbConfig.mk "a" None None; DbConfig.mk "b" None None;
                    DbConfig.mk "a" None None]
                   (Some text_marshal) (Some text_unmarshal).
Definition twice_config : LmdbEnvConfig.t :=
  LmdbEnvConfig.mk "." 0 420 (Z.shiftl 1 30) 1
                   [DbConfig.mk "a" None None; DbConfig.mk "a" None None]
                   (Some text_marshal) (Some text_unmarshal).

(** A request received by the updater and not yet run: the state after one
    goroutine has called [Put(k1, blob123)] and the updater has taken the
    request from the channel. *)
Definition request1 : TxnOp := Put_op db1 key_k1 (VBytes blob123).
Definition sched1 : Sched.state :=
  Sched.mkState (mkWorld (engine world1) (faults world1) (heap world1)
                         (S (chans world1)) None (trace world1))
                (Sched.GotOp request1 (Some (chans world1)))
                [Sched.AwaitingRes (Some (chans world1))]
                [request1] [] 0.

(** ** Further notions and inputs *)

(** The world in which [UpdateTxn] runs the transaction function: the one
    of the call, with the reply channel made and the updater out of its
    select. *)
Definition with_reply_chan (w : World) : World :=
  mkWorld (engine w) (faults w) (heap w) (S (chans w)) None (trace w).

(** The error of the first of the five set-up calls of [NewLmdb] that the
    engine refuses, in the order [NewLmdb] makes them. *)
Definition first_setup_error (f : Faults) (config : LmdbEnvConfig.t) : option error :=
  match f_NewEnv f with
  | Some e => Some (OpError "mdb_env_create" e)
  | None =>
  match f_SetMapSize f (LmdbEnvConfig.MapSize config) with
  | Some e => Some (OpError "mdb_env_set_mapsize" e)
  | None =>
  match f_SetMaxDBs f (length (LmdbEnvConfig.Databases config)) with
  | Some e => Some (OpError "mdb_env_set_maxdbs" e)
  | None =>
  match f_SetMaxReaders f (LmdbEnvConfig.MaxReaders config) with
  | Some e => Some (OpError "mdb_env_set_maxreaders" e)
  | None =>
      OpError "mdb_env_open"
        <$> f_Open f (LmdbEnvConfig.OpenPath config) (LmdbEnvConfig.OpenFlag config)
                   (LmdbEnvConfig.OpenFSMode config)
  end end end end.

(** Callers of [UpdateTxn] that wait for their reply, and that have it. *)
Definition is_awaiting (c : Sched.caller_pc) : bool :=
  match c with Sched.AwaitingRes _ => true | _ => false end.
Definition is_returned (c : Sched.caller_pc) : bool :=
  match c with Sched.Returned _ => true | _ => false end.
Fixpoint count (f : Sched.caller_pc -> bool) (cs : list Sched.caller_pc) : nat :=
  match cs with
  | [] => 0
  | c :: cs => (if f c then 1 else 0) + count f cs
  end.

(** The updater holds a request whose reply it has not sent. *)
Definition serving (pc : Sched.worker_pc) : bool :=
  match pc with
  | Sched.GotOp _ _ | Sched.InTxn _ _ | Sched.Replying _ _ | Sched.Dead _ => true
  | _ => false
  end.
Definition replying (pc : Sched.worker_pc) : bool :=
  match pc with Sched.Replying _ _ => true | _ => false end.

(** An engine that refuses to open the environment, one that refuses to
    set the map size, and one that refuses to create the database "b". *)
Definition faults_open : Faults :=
  mkFaults None (fun _ => None) (fun _ => None) (fun _ => None)
           (fun _ _ _ => Some (OtherErrno 13)) (fun _ => None) (fun _ _ _ => None).
Definition faults_create_b : Faults :=
  mkFaults None (fun _ => None) (fun _ => None) (fun _ => None) (fun _ _ _ => None)
           (fun name => if decide (name = "b") then Some (OtherErrno 28) else None)
           (fun _ _ _ => None).
Definition world_open_refused : World :=
  mkWorld (mkEngine ∅ ∅ false false) faults_open [] 0 None [].
Definition world_create_b_refused : World :=
  mkWorld (mkEngine ∅ ∅ false false) faults_create_b [] 0 None [].


(** A handler like [handler1] but with a quit channel, and the world in
    which the updater waits on both channels. *)
Definition handler_q : LmdbEnv.t :=
  LmdbEnv.mk 0 (LmdbEnv.databases handler1) (Some 0) (Some 7)
             (Some text_marshal) (Some text_unmarshal).
Definition world_q : World :=
  mkWorld (engine world1) (faults world1) (heap world1) 8 (Some (Some 0, Some 7))
          (trace world1).

(** A second key, and a codec that always fails. *)
Definition key_k2 : bytes := String.list_byte_of_string "k2".
Definition failing_marshal : MarshalFn :=
  fun _ => ([], Some (errors_New "cannot encode")).
Definition db_failing : Db.t :=
  Db.mk (Db.dbi db1) 0 (Db.updateWorkerChan db1) (Some failing_marshal) None.

(** The world a call leaves, for the examples. *)
Definition world_after {A} (m : M A) (w : World) : World :=
  match m w with
  | Done _ w' => w'
  | _ => w
  end.

(** A transaction function that writes and then gives up. *)
Definition rollback_op : TxnOp :=
  txn_Put (Db.dbi db1) key_k2 [Byte.x09] 0 ;;;
  ret (Some (errors_New "rollback")).

(** Two databases with different names. *)
Definition two_config : LmdbEnvConfig.t :=
  LmdbEnvConfig.mk "." 0 420 (Z.shiftl 1 30) 1
                   [DbConfig.mk "a" None None; DbConfig.mk "b" None None]
                   (Some text_marshal) (Some text_unmarshal).

(** A second request, and the state in which the updater has served
    [request1] and is inside the transaction of the second: two requests
    received, one executed, one write transaction open. *)
Definition request2 : TxnOp := Put_op db1 key_k1 (VBytes [Byte.x09]).
Definition sched2 : Sched.state :=
  Sched.mkState (with_reply_chan world2)
                (Sched.InTxn request2 (Some (chans world2)))
                [Sched.Returned None; Sched.AwaitingRes (Some (chans world2))]
                [request1; request2] [request1] 1.

(** A transaction function that calls [Put] on the same handle. *)
Definition reentrant_op : TxnOp :=
  Put db1 key_k2 (VBytes [Byte.x09]).

(** ** Slices *)

Lemma copy_length dst src : length (copy dst src) = length dst.
Proof.
  unfold copy. rewrite length_app, length_take, length_drop. lia.
Qed.

Lemma copy_nil src : copy [] src = [].
Proof. unfold copy. simpl. apply drop_nil. Qed.

Lemma copy_make src : copy (make (length src)) src = src.
Proof.
  unfold copy, make. rewrite length_replicate, firstn_all.
  rewrite drop_ge by (rewrite length_replicate; lia).
  apply app_nil_r.
Qed.

(** ** The engine *)

Lemma set_engine_id w : set_engine (engine w) w = w.
Proof. by destruct w. Qed.

Lemma key_ok_nonempty key : key_ok key = true → (length key =? 0)%nat = false.
Proof.
  unfold key_ok. intros [H%Nat.leb_le _]%andb_prop. apply Nat.eqb_neq. lia.
Qed.


(** What [mdb_put] has accepted it has stored. *)
Lemma mdb_put_accepted e d key val e' :
  mdb_put e d key val = (e', None) →
  key_ok key = true ∧ val_ok val = true
  ∧ ∃ t, tables e !! d = Some t
         ∧ e' = mkEngine (names e) (<[d := <[key := val]> t]> (tables e))
                         (synced e) (closed e).
Proof.
  unfold mdb_put. destruct (tables e !! d) as [t|] eqn:Ht; [|done].
  destruct (key_ok key && val_ok val) eqn:Hok; [|done]. simpl.
  apply andb_prop in Hok as [? ?]. intros [= <-]. split_and!; [done..|by exists t].
Qed.

Lemma mdb_get_put e d key val e' :
  mdb_put e d key val = (e', None) → mdb_get e' d key = (val, None).
Proof.
  intros (Hk & _ & t & Ht & ->)%mdb_put_accepted. unfold mdb_get. simpl.
  by rewrite lookup_insert_eq, (key_ok_nonempty _ Hk), lookup_insert_eq.
Qed.

(** ** Reads *)

Ltac unfold_m :=
  unfold View, txn_Get, txn_Put, txn_Del, txn_Drop, call_marshal, call_unmarshal,
    get_engine, put_engine, log, bind, ret in *.

(** [Get] returns a slice of length 0 whatever is stored, with the error
    of the engine's lookup; it changes nothing. *)
Lemma Get_spec s key w :
  Get s key w = Done ([], snd (mdb_get (engine w) (Db.dbi s) key)) w.
Proof.
  unfold Get. unfold_m. simpl.
  destruct (mdb_get (engine w) (Db.dbi s) key) as [bOri [err|]]; simpl;
    by rewrite ?copy_nil, set_engine_id.
Qed.

(** On a value that is not empty [GetAndMarshal] does call [s.unmarshal],
    on a copy of the stored bytes. *)
Lemma GetAndMarshal_nonempty s key dest w v f :
  mdb_get (engine w) (Db.dbi s) key = (v, None) →
  v ≠ [] →
  Db.unmarshal s = Some f →
  GetAndMarshal s key dest w = Done (f v dest) (emit (EvUnmarshal v) w).
Proof.
  intros Hget Hv Hf. unfold GetAndMarshal. unfold_m. simpl.
  rewrite Hget, Hf. simpl.
  destruct v as [|b v]; [done|]. simpl length.
  replace (S (length v)) with (length (b :: v)) by done.
  rewrite copy_make. by destruct w.
Qed.

(** On a value of length 0 [GetAndMarshal] stops before the call of
    [s.unmarshal]. *)
Lemma GetAndMarshal_empty_value s key dest w :
  mdb_get (engine w) (Db.dbi s) key = ([], None) →
  GetAndMarshal s key dest w
  = Done (dest, Some (errors_New "zero length bytes from database")) w.
Proof.
  intros Hget. unfold GetAndMarshal. unfold_m. simpl.
  rewrite Hget. simpl. by rewrite set_engine_id.
Qed.

(** The two reads leave the environment as it was. *)
Lemma Get_keeps_engine s key w r w' :
  Get s key w = Done r w' → engine w' = engine w.
Proof. rewrite Get_spec. by intros [= _ <-]. Qed.

Lemma GetAndMarshal_keeps_engine s key dest w r w' :
  GetAndMarshal s key dest w = Done r w' → engine w' = engine w.
Proof.
  unfold GetAndMarshal, View.
  match goal with |- context [match ?m w with _ => _ end] =>
    destruct (m w) as [a w2| |]; [|done..] end.
  by intros [= _ <-].
Qed.

(** ** Writes *)

Lemma handle_ok_inv w s :
  handle_ok w s = true →
  (∃ c q, Db.updateWorkerChan s = Some c ∧ worker w = Some (Some c, q))
  ∧ (∃ t, tables (engine w) !! Db.dbi s = Some t)
  ∧ closed (engine w) = false.
Proof.
  unfold handle_ok.
  intros [[Hc [t Ht]%bool_decide_eq_true]%andb_prop Hcl%negb_true_iff]%andb_prop.
  split_and!; [|by exists t|done].
  destruct (Db.updateWorkerChan s) as [c|]; [|done].
  destruct (worker w) as [[[c'|] q]|]; try done.
  apply bool_decide_eq_true in Hc as ->. by exists c', q.
Qed.

(** With the updater receiving on the handle's channel and the
    environment open, [UpdateTxn] runs [op] with the reply channel made and
    the updater out of its select, commits or aborts, and has the updater
    back in its select. *)
Lemma UpdateTxn_served_eq s op w :
  handle_ok w s = true →
  UpdateTxn s op w =
  match op (with_reply_chan w) with
  | Done None w' => Done None (set_worker (worker w) w')
  | Done (Some err) w' =>
      Done (Some err) (set_worker (worker w) (set_engine (engine w) w'))
  | Panic => Panic
  | Blocked => Blocked
  end.
Proof.
  intros [(c & q & Hc & Hw) [_ Hcl]]%handle_ok_inv.
  unfold UpdateTxn, bind.
  change (make_chan w) with
    (Done (Some (chans w))
          (mkWorld (engine w) (faults w) (heap w) (S (chans w)) (worker w) (trace w))).
  cbv iota beta. cbn [worker]. rewrite Hc, Hw, decide_True by done.
  unfold UpdateLocked, set_worker. cbn [engine faults heap chans worker trace].
  rewrite Hcl. fold (with_reply_chan w).
  by destruct (op (with_reply_chan w)) as [[e|] w'| |].
Qed.

(** [UpdateTxn] that returns has run [op] on an open environment, in the
    world with the reply channel made; on an error the engine is put
    back. *)
Lemma UpdateTxn_inv s op w err w1 :
  UpdateTxn s op w = Done err w1 →
  closed (engine w) = false
  ∧ ∃ w2, op (with_reply_chan w) = Done err w2
          ∧ w1 = set_worker (worker w)
                   (if err is Some _ then set_engine (engine w) w2 else w2).
Proof.
  unfold UpdateTxn, bind.
  change (make_chan w) with
    (Done (Some (chans w))
          (mkWorld (engine w) (faults w) (heap w) (S (chans w)) (worker w) (trace w))).
  cbv iota beta. cbn [worker].
  destruct (Db.updateWorkerChan s) as [c|]; [|done].
  destruct (worker w) as [[[c'|] q]|] eqn:Hw; try done.
  case_decide; [|done].
  unfold UpdateLocked, set_worker. cbn [engine faults heap chans worker trace].
  destruct (closed (engine w)); [done|]. fold (with_reply_chan w).
  destruct (op (with_reply_chan w)) as [[e|] w2| |]; try done;
    intros [= <- <-]; (split; [done|]); by exists w2.
Qed.

(** What [txn.Put] does when it returns. *)
Lemma txn_Put_Done d key b fl w err w' :
  txn_Put d key b fl w = Done err w' →
  match err with
  | None => ∃ e', mdb_put (engine w) d key b = (e', None)
                  ∧ f_Put (faults w) d key b = None
                  ∧ w' = set_engine e' w
  | Some _ => w' = w
  end.
Proof.
  unfold txn_Put, get_engine, bind, ret.
  destruct (mdb_put (engine w) d key b) as [e' [e|]]; simpl.
  - by intros [= <- <-].
  - destruct (f_Put (faults w) d key b); intros [= <- <-]; [done|]. by exists e'.
Qed.

(** What the transaction function of [Put] has stored when it returns
    nil. *)
Lemma Put_op_stored s key v w w2 :
  Put_op s key v w = Done None w2 →
  ∃ stored,
    mdb_get (engine w2) (Db.dbi s) key = (stored, None)
    ∧ match v with
      | VBytes b => stored = b
      | _ => ∃ f, Db.marshal s = Some f ∧ f v = (stored, None)
      end.
Proof.
  assert (Hput : ∀ b w0 w3, txn_Put (Db.dbi s) key b 0 w0 = Done None w3 →
                 mdb_get (engine w3) (Db.dbi s) key = (b, None)).
  { intros b w0 w3 (e' & Hp & _ & ->)%txn_Put_Done. simpl. by eapply mdb_get_put. }
  unfold Put_op. intros Hop.
  destruct v as [|b|z|str|fs]; try (by exists b; split; [eapply Hput|]);
    (unfold call_marshal in Hop; destruct (Db.marshal s) as [f|]; [|done];
     unfold log, bind, ret in Hop; simpl in Hop;
     match type of Hop with context [f ?v] =>
       destruct (f v) as [b [e|]] eqn:Hf; simpl in Hop; [done|];
       exists b; split; [by eapply Hput | by exists f]
     end).
Qed.

(** What a [Put] that returned nil has stored. *)
Lemma Put_stored s key v w w1 :
  Put s key v w = Done None w1 →
  ∃ stored,
    mdb_get (engine w1) (Db.dbi s) key = (stored, None)
    ∧ match v with
      | VBytes b => stored = b
      | _ => ∃ f, Db.marshal s = Some f ∧ f v = (stored, None)
      end.
Proof.
  unfold Put. intros (_ & w2 & Hop & ->)%UpdateTxn_inv.
  by apply Put_op_stored in Hop.
Qed.

(** C1. [Put(k, v)] followed by [Get(k)] does not give back the stored
    bytes: whenever [Put] has returned nil, the value is in the database
    ([v] itself for a [[]byte], the output of [s.marshal] otherwise), and
    [Get] returns a nil error with a slice of length 0, because [copy]
    writes into the nil named result.  So the bytes of [Get] are the same
    for every value and cannot decode back to it. *)
Theorem Get_after_Put_returns_no_bytes s key v w w1 :
  Put s key v w = Done None w1 →
  ∃ stored,
    mdb_get (engine w1) (Db.dbi s) key = (stored, None)
    ∧ match v with
      | VBytes b => stored = b
      | _ => ∃ f, Db.marshal s = Some f ∧ f v = (stored, None)
      end
    ∧ Get s key w1 = Done ([], None) w1.
Proof.
  intros HPut. destruct (Put_stored _ _ _ _ _ HPut) as (stored & Hget & Hv).
  exists stored. split_and!; [done..|].
  by rewrite Get_spec, Hget.
Qed.

Lemma Get_after_Put_returns_no_bytes_witness :
  Put db1 key_k1 (VBytes blob123) world1 = Done None world2
  ∧ ∃ stored,
      mdb_get (engine world2) (Db.dbi db1) key_k1 = (stored, None)
      ∧ stored = blob123
      ∧ Get db1 key_k1 world2 = Done ([], None) world2.
Proof.
  assert (H : Put db1 key_k1 (VBytes blob123) world1 = Done None world2)
    by (vm_compute; reflexivity).
  split; [exact H|].
  exact (Get_after_Put_returns_no_bytes db1 key_k1 (VBytes blob123) world1 world2 H).
Defined.

(** C5. On a key whose stored value has length 0, [GetAndMarshal] returns
    the error "zero length bytes from database"; the destination is as it
    was and the world is as it was, so no call of [s.unmarshal] was made
    (a call leaves [EvUnmarshal] in the trace, and a nil [s.unmarshal]
    would have panicked). *)
Theorem GetAndMarshal_zero_length s key dest w :
  mdb_get (engine w) (Db.dbi s) key = ([], None) →
  GetAndMarshal s key dest w
  = Done (dest, Some (errors_New "zero length bytes from database")) w.
Proof. apply GetAndMarshal_empty_value. Qed.

Lemma GetAndMarshal_zero_length_witness :
  mdb_get (engine world3) (Db.dbi db1) key_k1 = ([], None)
  ∧ GetAndMarshal db1 key_k1 (VString "before") world3
    = Done (VString "before", Some (errors_New "zero length bytes from database")) world3.
Proof.
  assert (H : mdb_get (engine world3) (Db.dbi db1) key_k1 = ([], None))
    by (vm_compute; reflexivity).
  split; [exact H|].
  exact (GetAndMarshal_zero_length db1 key_k1 (VString "before") world3 H).
Defined.



(** For the empty key the engine refuses both calls with
    [MDB_BAD_VALSIZE], which is not its not-found error. *)
Lemma Del_then_Get_empty_key :
  handle_ok world2 db1 = true
  ∧ Del db1 [] world2
    = Done (Some (OpError "mdb_del" BadValSize)) (world_after (Del db1 []) world2)
  ∧ Get db1 [] (world_after (Del db1 []) world2)
    = Done ([], Some (OpError "mdb_get" BadValSize)) (world_after (Del db1 []) world2)
  ∧ IsNotFound (Some (OpError "mdb_del" BadValSize)) = false
  ∧ IsNotFound (Some (OpError "mdb_get" BadValSize)) = false.
Proof. by vm_compute. Qed.

(** C10. After [Put(k, v)] with [v] a [[]byte] of length 0 has returned
    nil, the value stored at [k] has length 0, and in every later world in
    which that is still the value at [k], [GetAndMarshal(k, dest)] returns
    an error for every destination and every [s.unmarshal], while [Get(k)]
    returns nil with a slice of length 0. *)
Theorem empty_blob_unreadable_by_GetAndMarshal s key w w1 :
  Put s key (VBytes []) w = Done None w1 →
  mdb_get (engine w1) (Db.dbi s) key = ([], None)
  ∧ ∀ w2 dest,
      mdb_get (engine w2) (Db.dbi s) key = mdb_get (engine w1) (Db.dbi s) key →
      GetAndMarshal s key dest w2
      = Done (dest, Some (errors_New "zero length bytes from database")) w2
      ∧ Get s key w2 = Done ([], None) w2.
Proof.
  intros HPut. destruct (Put_stored _ _ _ _ _ HPut) as (stored & Hget & ->).
  split; [done|]. intros w2 dest Hsame. rewrite Hget in Hsame. split.
  - by apply GetAndMarshal_empty_value.
  - by rewrite Get_spec, Hsame.
Qed.

Lemma empty_blob_unreadable_by_GetAndMarshal_witness :
  Put db1 key_k1 (VBytes []) world1 = Done None world3
  ∧ mdb_get (engine world3) (Db.dbi db1) key_k1 = ([], None)
  ∧ ∀ w2 dest,
      mdb_get (engine w2) (Db.dbi db1) key_k1
      = mdb_get (engine world3) (Db.dbi db1) key_k1 →
      GetAndMarshal db1 key_k1 dest w2
      = Done (dest, Some (errors_New "zero length bytes from database")) w2
      ∧ Get db1 key_k1 w2 = Done ([], None) w2.
Proof.
  assert (H : Put db1 key_k1 (VBytes []) world1 = Done None world3)
    by (vm_compute; reflexivity).
  split; [exact H|].
  exact (empty_blob_unreadable_by_GetAndMarshal db1 key_k1 world1 world3 H).
Defined.

(** ** [NewLmdb] *)

Lemma mdb_dbi_open_closed e name : closed (mdb_dbi_open e name).1 = closed e.
Proof. unfold mdb_dbi_open. by destruct (names e !! name). Qed.

(** One round of the loop of [NewLmdb], on an open environment. *)
Lemma create_databases_cons lmdbEnv h c rest w :
  closed (engine w) = false →
  create_databases lmdbEnv h (c :: rest) w =
  let name := DbConfig.DbName c in
  let new d := Db.mk d lmdbEnv (LmdbEnv.updateWorkerChan h)
                     (LmdbEnv.marshal h) (LmdbEnv.unmarshal h) in
  match f_CreateDBI (faults w) name with
  | Some _ =>
      Done (None, Some (errors_New ("error creating database " +:+ name)))
           (mkWorld (engine w) (faults w) (heap w ++ [new 0]) (chans w) (worker w)
                    (trace w ++ [EvCreateDBI name]))
  | None =>
      create_databases lmdbEnv
        (LmdbEnv.mk (LmdbEnv.LmdbEnv h) (<[name := length (heap w)]> (LmdbEnv.databases h))
                    (LmdbEnv.updateWorkerChan h) (LmdbEnv.quitChan h)
                    (LmdbEnv.marshal h) (LmdbEnv.unmarshal h))
        rest
        (mkWorld (mdb_dbi_open (engine w) name).1 (faults w)
                 (heap w ++ [new (mdb_dbi_open (engine w) name).2])
                 (chans w) (worker w) (trace w ++ [EvCreateDBI name]))
  end.
Proof.
  intros Hcl. cbn [create_databases].
  unfold bind at 1. unfold new_Db at 1.
  unfold bind at 1.
  unfold Update, UpdateLocked, txn_CreateDBI, set_dbi, log, bind, ret, emit, set_engine.
  cbn [faults heap engine chans worker trace]. rewrite Hcl.
  destruct (f_CreateDBI (faults w) (DbConfig.DbName c)) as [errno|] eqn:Hf;
    cbn [fst snd heap].
  - rewrite list_lookup_middle by done. cbn.
    rewrite insert_app_r_alt, Nat.sub_diag by done. done.
  - destruct (mdb_dbi_open (engine w) (DbConfig.DbName c)) as [e' d] eqn:Hopen.
    cbn [fst snd heap set_engine engine faults chans worker trace].
    rewrite list_lookup_middle by done. cbn.
    rewrite insert_app_r_alt, Nat.sub_diag by done. done.
Qed.

Lemma mdb_dbi_open_tables e name d :
  is_Some (tables e !! d) → is_Some (tables (mdb_dbi_open e name).1 !! d).
Proof.
  unfold mdb_dbi_open. destruct (names e !! name); [done|]. simpl.
  intros Hd. destruct (decide (2 + size (names e) = d)) as [<-|Hne].
  - rewrite lookup_insert_eq. by eexists.
  - by rewrite lookup_insert_ne.
Qed.

Lemma mdb_dbi_open_wf e name :
  engine_wf e → engine_wf (mdb_dbi_open e name).1.
Proof.
  intros Hwf name' d. unfold mdb_dbi_open.
  destruct (names e !! name) eqn:Hname; simpl; [by apply Hwf|].
  destruct (decide (name = name')) as [<-|Hne].
  - rewrite lookup_insert_eq. intros [= <-]. rewrite lookup_insert_eq. by eexists.
  - rewrite lookup_insert_ne by done. intros Hd%Hwf.
    destruct (decide (2 + size (names e) = d)) as [<-|Hne'].
    + rewrite lookup_insert_eq. by eexists.
    + by rewrite lookup_insert_ne.
Qed.

Lemma mdb_dbi_open_opened e name :
  engine_wf e →
  is_Some (tables (mdb_dbi_open e name).1 !! (mdb_dbi_open e name).2).
Proof.
  intros Hwf. unfold mdb_dbi_open.
  destruct (names e !! name) eqn:Hname; simpl; [by eapply Hwf|].
  rewrite lookup_insert_eq. by eexists.
Qed.

(** What the loop has done when it ends without an error. *)
Lemma create_databases_ok dbs : ∀ lmdbEnv h w h' err w',
  create_databases lmdbEnv h dbs w = Done (Some h', err) w' →
  closed (engine w) = false →
  err = None
  ∧ LmdbEnv.LmdbEnv h' = LmdbEnv.LmdbEnv h
  ∧ LmdbEnv.updateWorkerChan h' = LmdbEnv.updateWorkerChan h
  ∧ LmdbEnv.quitChan h' = LmdbEnv.quitChan h
  ∧ LmdbEnv.marshal h' = LmdbEnv.marshal h
  ∧ LmdbEnv.unmarshal h' = LmdbEnv.unmarshal h
  ∧ LmdbEnv.databases h' = bind_names (length (heap w)) dbs (LmdbEnv.databases h)
  ∧ faults w' = faults w
  ∧ worker w' = worker w
  ∧ length (heap w') = length (heap w) + length dbs
  ∧ (∀ p, p < length (heap w) → heap w' !! p = heap w !! p)
  ∧ (∀ i, i < length dbs →
       ∃ d, heap w' !! (length (heap w) + i)
            = Some (Db.mk d lmdbEnv (LmdbEnv.updateWorkerChan h)
                          (LmdbEnv.marshal h) (LmdbEnv.unmarshal h))
            ∧ (engine_wf (engine w) → is_Some (tables (engine w') !! d)))
  ∧ (engine_wf (engine w) → engine_wf (engine w'))
  ∧ (∀ d, is_Some (tables (engine w) !! d) → is_Some (tables (engine w') !! d))
  ∧ closed (engine w') = false.
Proof.
  induction dbs as [|c rest IH]; intros lmdbEnv h w h' err w'.
  - intros [= <- <- <-] Hcl. split_and!; try done.
    intros i Hi. simpl in Hi. lia.
  - intros Hrest Hcl. rewrite create_databases_cons in Hrest by done. cbv zeta in Hrest.
    destruct (f_CreateDBI (faults w) (DbConfig.DbName c)); [done|].
    apply IH in Hrest; [|cbn [engine]; by rewrite mdb_dbi_open_closed].
    cbn [LmdbEnv.LmdbEnv LmdbEnv.updateWorkerChan LmdbEnv.quitChan LmdbEnv.marshal
         LmdbEnv.unmarshal LmdbEnv.databases faults worker heap engine] in Hrest.
    rewrite length_app in Hrest. cbn [length] in Hrest.
    rewrite Nat.add_1_r in Hrest.
    destruct Hrest
      as (-> & ? & ? & ? & ? & ? & Hdb & ? & ? & Hlen & Hold & Hnew & Hwf & Hmono & ?).
    assert (Hhere : heap w' !! length (heap w)
                    = Some (Db.mk (mdb_dbi_open (engine w) (DbConfig.DbName c)).2 lmdbEnv
                                  (LmdbEnv.updateWorkerChan h) (LmdbEnv.marshal h)
                                  (LmdbEnv.unmarshal h))).
    { rewrite Hold by lia. by apply list_lookup_middle. }
    split_and!; try done.
    + cbn [length]. lia.
    + intros p Hp. rewrite Hold by lia. by apply lookup_app_l.
    + intros [|i] Hi.
      * rewrite Nat.add_0_r. eexists. split; [exact Hhere|].
        intros Hw. by apply Hmono, mdb_dbi_open_opened.
      * destruct (Hnew i) as (d & Hd & Hopen); [cbn [length] in Hi; lia|].
        exists d. rewrite <- Nat.add_succ_comm. split; [done|].
        intros Hw. by apply Hopen, mdb_dbi_open_wf.
    + intros Hw. by apply Hwf, mdb_dbi_open_wf.
    + intros d Hd. by apply Hmono, mdb_dbi_open_tables.
Qed.

(** The world in which the loop of [NewLmdb] starts when the five set-up
    calls succeed, and the handler it starts with. *)
Lemma NewLmdb_inv config w l err w' :
  NewLmdb config w = Done (Some l, err) w' →
  let w0 := mkWorld (opened (engine w)) (faults w) (heap w) (S (chans w)) (worker w)
              (trace w ++ [EvNewEnv] ++ [EvSetMapSize (LmdbEnvConfig.MapSize config)]
                 ++ [EvSetMaxDBs (length (LmdbEnvConfig.Databases config))]
                 ++ [EvSetMaxReaders (LmdbEnvConfig.MaxReaders config)]
                 ++ [EvOpen (LmdbEnvConfig.OpenPath config) (LmdbEnvConfig.OpenFlag config)
                            (LmdbEnvConfig.OpenFSMode config)]) in
  let h0 := LmdbEnv.mk 0 ∅ (Some (chans w)) None
              (LmdbEnvConfig.Marshal config) (LmdbEnvConfig.Unmarshal config) in
  err = None
  ∧ LmdbEnvConfig.Databases config ≠ []
  ∧ ∃ w1,
      create_databases 0 h0 (LmdbEnvConfig.Databases config) w0 = Done (Some l, None) w1
      ∧ w' = mkWorld (engine w1) (faults w1) (heap w1) (chans w1)
                     (Some (LmdbEnv.updateWorkerChan l, LmdbEnv.quitChan l))
                     (trace w1 ++ [EvGo (LmdbEnv.updateWorkerChan l) (LmdbEnv.quitChan l)]).
Proof.
  unfold NewLmdb.
  destruct (length (LmdbEnvConfig.Databases config) <? 1)%nat eqn:Hlen; [done|].
  assert (Hne : LmdbEnvConfig.Databases config ≠ []).
  { intros Hnil. by rewrite Hnil in Hlen. }
  unfold lmdb_NewEnv, Env_SetMapSize, Env_SetMaxDBs, Env_SetMaxReaders, Env_Open,
    env_call, make_chan, go_worker, log, get_engine, put_engine, set_engine, bind, ret, emit.
  cbn [faults engine heap chans worker trace fst snd].
  destruct (f_NewEnv (faults w)); [done|]. cbn.
  destruct (f_SetMapSize (faults w) _); [done|]. cbn.
  destruct (f_SetMaxDBs (faults w) _); [done|]. cbn.
  destruct (f_SetMaxReaders (faults w) _); [done|]. cbn.
  destruct (f_Open (faults w) _ _ _); [done|]. cbn.
  rewrite <- !(assoc_L (++)). cbn [app].
  match goal with |- context [create_databases ?e ?h ?d ?w0] =>
    destruct (create_databases e h d w0) as [[[h1|] [e1|]] w1| |] eqn:Hloop end;
    try done.
  - apply create_databases_ok in Hloop; [|done]. by destruct Hloop as [? _].
  - intros [= <- <- <-]. split_and!; try done. by exists w1.
Qed.

(** The loop fails only when the engine refuses to create a database. *)
Lemma create_databases_succeeds dbs : ∀ lmdbEnv h w,
  closed (engine w) = false →
  (∀ c, c ∈ dbs → f_CreateDBI (faults w) (DbConfig.DbName c) = None) →
  ∃ h' w', create_databases lmdbEnv h dbs w = Done (Some h', None) w'.
Proof.
  induction dbs as [|c rest IH]; intros lmdbEnv h w Hcl Hf.
  - by eexists _, _.
  - rewrite create_databases_cons by done. cbv zeta.
    rewrite Hf by apply list_elem_of_here.
    apply IH; cbn [faults engine]; [by rewrite mdb_dbi_open_closed|].
    intros c' Hc'. by apply Hf, list_elem_of_further.
Qed.

Lemma NewLmdb_succeeds config w :
  LmdbEnvConfig.Databases config ≠ [] →
  setup_succeeds (faults w) config →
  ∃ l w', NewLmdb config w = Done (Some l, None) w'.
Proof.
  intros Hne (H1 & H2 & H3 & H4 & H5 & H6). unfold NewLmdb.
  destruct (length (LmdbEnvConfig.Databases config) <? 1)%nat eqn:Hlen.
  { destruct (LmdbEnvConfig.Databases config); [done|]. by cbn in Hlen. }
  unfold lmdb_NewEnv, Env_SetMapSize, Env_SetMaxDBs, Env_SetMaxReaders, Env_Open,
    env_call, make_chan, go_worker, log, get_engine, put_engine, set_engine, bind, ret, emit.
  cbn [faults engine heap chans worker trace fst snd].
  rewrite H1. cbn. rewrite H2. cbn. rewrite H3. cbn. rewrite H4. cbn. rewrite H5. cbn.
  match goal with |- context [create_databases ?e ?h ?d ?w0] =>
    destruct (create_databases_succeeds d e h w0) as (h' & w' & ->); [done..|]
  end.
  by eexists _, _.
Qed.

(** ** The name-to-handle map *)

Lemma bind_names_absent dbs : ∀ n m name,
  (∀ c, c ∈ dbs → DbConfig.DbName c ≠ name) →
  bind_names n dbs m !! name = m !! name.
Proof.
  induction dbs as [|c rest IH]; intros n m name Hno; [done|].
  cbn [bind_names]. rewrite IH by (intros ??; by apply Hno, list_elem_of_further).
  apply lookup_insert_ne, Hno, list_elem_of_here.
Qed.

(** A name is bound to the object of the last entry that carries it. *)
Lemma bind_names_last dbs : ∀ n m k c,
  dbs !! k = Some c →
  (∀ k' c', k < k' → dbs !! k' = Some c' → DbConfig.DbName c' ≠ DbConfig.DbName c) →
  bind_names n dbs m !! DbConfig.DbName c = Some (n + k).
Proof.
  induction dbs as [|c0 rest IH]; intros n m k c Hk Hlast; [done|].
  cbn [bind_names]. destruct k as [|k].
  - injection Hk as ->. rewrite bind_names_absent.
    + by rewrite lookup_insert_eq, Nat.add_0_r.
    + intros c' [k' Hk']%list_elem_of_lookup. apply (Hlast (S k')); [lia|done].
  - rewrite <- Nat.add_succ_comm. apply IH; [done|].
    intros k' c' Hlt Hk'. apply (Hlast (S k')); [lia|done].
Qed.

(** Whatever the map binds is what [m] bound under a name no entry
    carries, or such a last entry. *)
Lemma bind_names_bound dbs : ∀ n m name p,
  bind_names n dbs m !! name = Some p →
  (m !! name = Some p ∧ ∀ c, c ∈ dbs → DbConfig.DbName c ≠ name)
  ∨ ∃ k c, dbs !! k = Some c ∧ DbConfig.DbName c = name ∧ p = n + k
           ∧ ∀ k' c', k < k' → dbs !! k' = Some c' → DbConfig.DbName c' ≠ name.
Proof.
  induction dbs as [|c0 rest IH]; intros n m name p.
  { left. split; [done|]. by intros c ?%elem_of_nil. }
  cbn [bind_names]. intros [[Hm Hno]|(k & c & Hk & Hname & -> & Hlast)]%IH.
  - destruct (decide (DbConfig.DbName c0 = name)) as [Heq|Hne].
    + rewrite Heq, lookup_insert_eq in Hm. injection Hm as <-.
      right. exists 0, c0. split_and!; [done|done|lia|].
      intros [|k'] c' Hlt Hk'; [lia|]. simpl in Hk'.
      apply Hno, list_elem_of_lookup. by exists k'.
    + rewrite lookup_insert_ne in Hm by done. left. split; [done|].
      intros c [->|Hc]%elem_of_cons; [done|by apply Hno].
  - right. exists (S k), c. split_and!; [done|done|lia|].
    intros [|k'] c' Hlt Hk'; [lia|]. apply (Hlast k'); [lia|done].
Qed.

(** Every handle [NewLmdb] hands out: which entry it was made for, where it
    lives, and what it holds. *)
Lemma NewLmdb_handles config w l err w' name p :
  NewLmdb config w = Done (Some l, err) w' →
  GetDatabase l name = Some p →
  LmdbEnv.updateWorkerChan l = Some (chans w)
  ∧ LmdbEnv.quitChan l = None
  ∧ worker w' = Some (Some (chans w), None)
  ∧ ∃ k c d,
      LmdbEnvConfig.Databases config !! k = Some c
      ∧ DbConfig.DbName c = name
      ∧ p = length (heap w) + k
      ∧ heap w' !! p = Some (Db.mk d 0 (Some (chans w)) (LmdbEnvConfig.Marshal config)
                                   (LmdbEnvConfig.Unmarshal config))
      ∧ (engine_wf (engine w) → is_Some (tables (engine w') !! d)).
Proof.
  intros Hnew Hget. apply NewLmdb_inv in Hnew. cbv zeta in Hnew.
  destruct Hnew as (-> & Hne & w1 & Hloop & ->).
  apply create_databases_ok in Hloop; [|done].
  cbn [LmdbEnv.LmdbEnv LmdbEnv.updateWorkerChan LmdbEnv.quitChan LmdbEnv.marshal
       LmdbEnv.unmarshal LmdbEnv.databases faults worker heap engine] in Hloop.
  destruct Hloop as (_ & _ & Hc & Hq & _ & _ & Hdb & _ & _ & _ & _ & Hnew & _ & _).
  cbn [worker heap engine]. rewrite Hc, Hq. split_and!; try done.
  unfold GetDatabase in Hget. rewrite Hdb in Hget.
  apply bind_names_bound in Hget as [[Hempty _]|(k & c & Hk & Hname & -> & _)].
  { by rewrite lookup_empty in Hempty. }
  destruct (Hnew k) as (d & Hd & Hopen); [by eapply lookup_lt_Some|].
  by exists k, c, d.
Qed.

(** A successful [NewLmdb] leaves the environment open. *)
Lemma NewLmdb_open config w l err w' :
  NewLmdb config w = Done (Some l, err) w' → closed (engine w') = false.
Proof.
  intros Hnew. apply NewLmdb_inv in Hnew. cbv zeta in Hnew.
  destruct Hnew as (_ & _ & w1 & Hloop & ->).
  apply create_databases_ok in Hloop; [|done].
  by destruct Hloop as (_ & _ & _ & _ & _ & _ & _ & _ & _ & _ & _ & _ & _ & _ & Hcl).
Qed.

(** The handles of [NewLmdb] are fit for use. *)
Lemma NewLmdb_handle_ok config w l err w' name p :
  engine_wf (engine w) →
  NewLmdb config w = Done (Some l, err) w' →
  GetDatabase l name = Some p →
  ∃ s, heap w' !! p = Some s ∧ handle_ok w' s = true.
Proof.
  intros Hwf Hnew Hget.
  destruct (NewLmdb_handles _ _ _ _ _ _ _ Hnew Hget)
    as (_ & _ & Hw & k & c & d & _ & _ & _ & Hs & Hopen).
  eexists. split; [exact Hs|]. unfold handle_ok.
  rewrite Hw, (NewLmdb_open _ _ _ _ _ Hnew). cbn.
  rewrite bool_decide_eq_true_2 by done.
  by rewrite bool_decide_eq_true_2 by auto.
Qed.

(** C8. With an empty [Databases] list [NewLmdb] returns the error
    "no databases is setup" and leaves the world as it was: no call to the
    engine is in the trace (so no environment was created or opened) and
    the updater goroutine was not started. *)
Theorem NewLmdb_no_databases config w :
  LmdbEnvConfig.Databases config = [] →
  NewLmdb config w = Done (None, Some (errors_New "no databases is setup")) w.
Proof. intros Hnil. unfold NewLmdb. by rewrite Hnil. Qed.

(** C3. Every handle [NewLmdb] creates holds the [Marshal] and
    [Unmarshal] of the environment configuration, whatever its own
    [DbConfig] says: an override given per database is never read, and
    when the environment gives none the handle holds nil, not msgpack. *)
Theorem NewLmdb_handles_hold_env_codec config w l err w' name p :
  NewLmdb config w = Done (Some l, err) w' →
  GetDatabase l name = Some p →
  ∃ s, heap w' !! p = Some s
       ∧ Db.marshal s = LmdbEnvConfig.Marshal config
       ∧ Db.unmarshal s = LmdbEnvConfig.Unmarshal config.
Proof.
  intros Hnew Hget.
  destruct (NewLmdb_handles _ _ _ _ _ _ _ Hnew Hget)
    as (_ & _ & _ & k & c & d & _ & _ & _ & Hs & _).
  by eexists.
Qed.

Lemma NewLmdb_handles_hold_env_codec_witness :
  NewLmdb override_config world0
  = Done (Some (NewLmdb_handler override_config world0), None)
         (NewLmdb_world override_config world0)
  ∧ GetDatabase (NewLmdb_handler override_config world0) "a" = Some 0
  ∧ ∃ s, heap (NewLmdb_world override_config world0) !! 0 = Some s
         ∧ Db.marshal s = Some text_marshal
         ∧ Db.unmarshal s = Some text_unmarshal.
Proof.
  assert (H1 : NewLmdb override_config world0
               = Done (Some (NewLmdb_handler override_config world0), None)
                      (NewLmdb_world override_config world0))
    by (vm_compute; reflexivity).
  assert (H2 : GetDatabase (NewLmdb_handler override_config world0) "a" = Some 0)
    by (vm_compute; reflexivity).
  split_and!; [exact H1|exact H2|].
  exact (NewLmdb_handles_hold_env_codec override_config world0 _ None _ "a" 0 H1 H2).
Defined.

(** The database "a" was configured with [const_marshal], which encodes
    everything as the byte ff; [Put] through its handle stores the
    environment's encoding instead. *)
Example override_is_not_used :
  ∃ w, Put (deref (NewLmdb_world override_config world0) 0) key_k1 (VString "hi")
           (NewLmdb_world override_config world0) = Done None w
       ∧ mdb_get (engine w) 2 key_k1 = (String.list_byte_of_string "hi", None)
       ∧ const_marshal (VString "hi") = ([Byte.xff], None).
Proof. eexists. by vm_compute. Qed.

(** With no codec configured at either level the handle holds nil: [Put]
    of a value that is not a [[]byte] panics in the updater, and
    [GetAndMarshal] of a stored value panics in the caller. *)
Example no_default_codec :
  Db.marshal (deref (NewLmdb_world nocodec_config world0) 0) = None
  ∧ Db.unmarshal (deref (NewLmdb_world nocodec_config world0) 0) = None
  ∧ Put (deref (NewLmdb_world nocodec_config world0) 0) key_k1 (VString "hi")
        (NewLmdb_world nocodec_config world0) = Panic
  ∧ ∃ w, Put (deref (NewLmdb_world nocodec_config world0) 0) key_k1 (VBytes blob123)
             (NewLmdb_world nocodec_config world0) = Done None w
         ∧ GetAndMarshal (deref (NewLmdb_world nocodec_config world0) 0) key_k1 VNil w
           = Panic.
Proof. split_and!; [by vm_compute..|]. eexists. by vm_compute. Qed.

Lemma NewLmdb_no_databases_witness :
  LmdbEnvConfig.Databases empty_config = []
  ∧ NewLmdb empty_config world0
    = Done (None, Some (errors_New "no databases is setup")) world0.
Proof.
  assert (H : LmdbEnvConfig.Databases empty_config = []) by reflexivity.
  split; [exact H|]. exact (NewLmdb_no_databases empty_config world0 H).
Defined.

(** With one database the same call reaches the engine and starts the
    updater: this is what the empty list cuts short. *)
Example NewLmdb_default_effects :
  trace world1
  = [EvNewEnv; EvSetMapSize 1073741824; EvSetMaxDBs 1; EvSetMaxReaders 1;
     EvOpen "." 0 420; EvCreateDBI "default"; EvGo (Some 0) None]
  ∧ worker world1 = Some (Some 0, None)
  ∧ worker world0 = None.
Proof. by vm_compute. Qed.

(** Among the entries that carry a name there is a last one. *)
Lemma last_entry_exists (dbs : list DbConfig.t) name :
  ∀ j cj, dbs !! j = Some cj → DbConfig.DbName cj = name →
  ∃ k ck, (j ≤ k)%nat ∧ dbs !! k = Some ck ∧ DbConfig.DbName ck = name
          ∧ ∀ k' c', k < k' → dbs !! k' = Some c' → DbConfig.DbName c' ≠ name.
Proof.
  induction dbs as [|c0 rest IH]; intros j cj Hj Hname; [done|].
  destruct (decide (Exists (λ c, DbConfig.DbName c = name) rest)) as [Hex|Hno].
  - apply Exists_exists in Hex as (c & [i Hi]%list_elem_of_lookup & Hc).
    destruct j as [|j].
    + destruct (IH i c Hi Hc) as (k & ck & _ & Hk & Hck & Hlast).
      exists (S k), ck. split_and!; [lia|done|done|].
      intros [|k'] c' Hlt Hk'; [lia|]. apply (Hlast k'); [lia|done].
    + destruct (IH j cj Hj Hname) as (k & ck & Hle & Hk & Hck & Hlast).
      exists (S k), ck. split_and!; [lia|done|done|].
      intros [|k'] c' Hlt Hk'; [lia|]. apply (Hlast k'); [lia|done].
  - destruct j as [|j].
    + injection Hj as ->. exists 0, cj. split_and!; [lia|done|done|].
      intros [|k'] c' Hlt Hk' Hc'; [lia|]. apply Hno, Exists_exists.
      exists c'. split; [|done]. apply list_elem_of_lookup. by exists k'.
    + exfalso. apply Hno, Exists_exists. exists cj. split; [|done].
      apply list_elem_of_lookup. by exists j.
Qed.

(** C9. When two entries of [Databases] carry the same name and the engine
    refuses no set-up call, [NewLmdb] succeeds; [GetDatabase] of the name
    returns the handle made for the last entry with that name; the handle
    made for the earlier entry is on the heap but no name leads to it. *)
Theorem NewLmdb_duplicate_names config w i j ci cj :
  setup_succeeds (faults w) config →
  (i < j)%nat →
  LmdbEnvConfig.Databases config !! i = Some ci →
  LmdbEnvConfig.Databases config !! j = Some cj →
  DbConfig.DbName ci = DbConfig.DbName cj →
  ∃ l w' k ck,
    NewLmdb config w = Done (Some l, None) w'
    ∧ (j ≤ k)%nat
    ∧ LmdbEnvConfig.Databases config !! k = Some ck
    ∧ DbConfig.DbName ck = DbConfig.DbName cj
    ∧ (∀ k' c', k < k' → LmdbEnvConfig.Databases config !! k' = Some c' →
         DbConfig.DbName c' ≠ DbConfig.DbName cj)
    ∧ GetDatabase l (DbConfig.DbName cj) = Some (length (heap w) + k)
    ∧ is_Some (heap w' !! (length (heap w) + i))
    ∧ ∀ name, GetDatabase l name ≠ Some (length (heap w) + i).
Proof.
  intros Hsetup Hij Hi Hj Hsame.
  destruct (NewLmdb_succeeds config w) as (l & w' & Hnew); [|done|].
  { intros Hnil. by rewrite Hnil in Hi. }
  destruct (last_entry_exists _ _ j cj Hj eq_refl) as (k & ck & Hle & Hk & Hck & Hlast).
  exists l, w', k, ck. split_and!; try done.
  - pose proof Hnew as Hinv. apply NewLmdb_inv in Hinv. cbv zeta in Hinv.
    destruct Hinv as (_ & _ & w1 & Hloop & _).
    apply create_databases_ok in Hloop; [|done].
    destruct Hloop as (_ & _ & _ & _ & _ & _ & Hdb & _).
    unfold GetDatabase. rewrite Hdb, <- Hck. cbn [heap LmdbEnv.databases].
    apply bind_names_last; [done|]. intros k' c' Hlt Hk'. rewrite Hck. by eapply Hlast.
  - pose proof Hnew as Hinv. apply NewLmdb_inv in Hinv. cbv zeta in Hinv.
    destruct Hinv as (_ & _ & w1 & Hloop & ->).
    apply create_databases_ok in Hloop; [|done].
    destruct Hloop as (_ & _ & _ & _ & _ & _ & _ & _ & _ & _ & _ & Hheap & _).
    cbn [heap] in *. destruct (Hheap i) as (d & -> & _); [by eapply lookup_lt_Some|].
    by eexists.
  - intros name Hget.
    destruct (NewLmdb_handles _ _ _ _ _ _ _ Hnew Hget)
      as (_ & _ & _ & k0 & c0 & d & Hk0 & Hname & Heq & _).
    assert (k0 = i) as -> by lia.
    pose proof Hnew as Hinv. apply NewLmdb_inv in Hinv. cbv zeta in Hinv.
    destruct Hinv as (_ & _ & w1 & Hloop & _).
    apply create_databases_ok in Hloop; [|done].
    destruct Hloop as (_ & _ & _ & _ & _ & _ & Hdb & _).
    unfold GetDatabase in Hget. rewrite Hdb in Hget. cbn [heap LmdbEnv.databases] in Hget.
    apply bind_names_bound in Hget as [[Hempty _]|(k1 & c1 & Hk1 & Hn1 & Hp & Hl1)].
    { by rewrite lookup_empty in Hempty. }
    assert (k1 = i) as -> by lia.
    apply (Hl1 j cj Hij Hj). rewrite <- Hn1. congruence.
Qed.

Lemma NewLmdb_duplicate_names_witness :
  ∃ l w' k ck,
    NewLmdb dup_config world0 = Done (Some l, None) w'
    ∧ (2 ≤ k)%nat
    ∧ LmdbEnvConfig.Databases dup_config !! k = Some ck
    ∧ DbConfig.DbName ck = "a"
    ∧ (∀ k' c', (k < k')%nat → LmdbEnvConfig.Databases dup_config !! k' = Some c' →
         DbConfig.DbName c' ≠ "a")
    ∧ GetDatabase l "a" = Some (length (heap world0) + k)
    ∧ is_Some (heap w' !! (length (heap world0) + 0))
    ∧ ∀ name, GetDatabase l name ≠ Some (length (heap world0) + 0).
Proof.
  apply (NewLmdb_duplicate_names dup_config world0 0 2
           (DbConfig.mk "a" None None) (DbConfig.mk "a" None None)).
  - by repeat split.
  - lia.
  - reflexivity.
  - reflexivity.
  - reflexivity.
Defined.

(** On ["a"; "b"; "a"] the map has two entries: "a" leads to the third
    handle, "b" to the second, nothing to the first. *)
Example dup_config_map :
  map_to_list (LmdbEnv.databases (NewLmdb_handler dup_config world0))
  = [("a", 2); ("b", 1)]
  ∧ length (heap (NewLmdb_world dup_config world0)) = 3.
Proof. by vm_compute. Qed.

(** ** [GetSingleDatabase] *)

Lemma map_size_1_singleton (m : gmap string ptr) :
  size m = 1 → ∃ name p, m = {[name := p]} ∧ map_to_list m = [(name, p)].
Proof.
  intros Hsize. rewrite <- length_map_to_list in Hsize.
  destruct (map_to_list m) as [|[name p] [|? ?]] eqn:Hl; try done.
  exists name, p. split; [|done].
  rewrite <- (list_to_map_to_list m), Hl. simpl. by rewrite insert_empty.
Qed.

(** C7. [GetSingleDatabase] returns a nil error exactly when the
    environment's map of databases has one entry; with no entry or with
    two or more it returns the error "number of databases configured
    LmdbEnv is not 1" and a nil handle; with one entry it returns that
    entry's handle. *)
Theorem GetSingleDatabase_spec l :
  (snd (GetSingleDatabase l) = None ↔ size (LmdbEnv.databases l) = 1)
  ∧ (size (LmdbEnv.databases l) ≠ 1 →
     GetSingleDatabase l
     = (None, Some (errors_New "number of databases configured LmdbEnv is not 1")))
  ∧ (size (LmdbEnv.databases l) = 1 →
     ∃ name p, LmdbEnv.databases l = {[name := p]}
               ∧ GetSingleDatabase l = (Some p, None)).
Proof.
  unfold GetSingleDatabase.
  destruct (Nat.eqb_spec (size (LmdbEnv.databases l)) 1) as [Heq|Hne]; simpl.
  - destruct (map_size_1_singleton _ Heq) as (name & p & Hm & Hl). rewrite Hl.
    split_and!; [done|done|]. intros _. by exists name, p.
  - split_and!; [done|done|done].
Qed.

Example GetSingleDatabase_default :
  GetSingleDatabase handler1 = (Some 0, None).
Proof. by vm_compute. Qed.

Example GetSingleDatabase_two_names :
  GetSingleDatabase (NewLmdb_handler dup_config world0)
  = (None, Some (errors_New "number of databases configured LmdbEnv is not 1")).
Proof. by vm_compute. Qed.

Example GetSingleDatabase_no_entry :
  GetSingleDatabase (LmdbEnv.mk 0 ∅ None None None None)
  = (None, Some (errors_New "number of databases configured LmdbEnv is not 1")).
Proof. by vm_compute. Qed.

(** The count is that of the map: a name configured twice is one entry. *)
Example GetSingleDatabase_one_name_twice :
  length (LmdbEnvConfig.Databases twice_config) = 2
  ∧ GetSingleDatabase (NewLmdb_handler twice_config world0) = (Some 1, None).
Proof. by vm_compute. Qed.

(** When the configured names are pairwise distinct, the map has as many
    entries as [Databases]. *)
Lemma bind_names_size dbs : ∀ n m,
  NoDup (DbConfig.DbName <$> dbs) →
  (∀ c, c ∈ dbs → m !! DbConfig.DbName c = None) →
  size (bind_names n dbs m) = size m + length dbs.
Proof.
  induction dbs as [|c rest IH]; intros n m Hnd Hfresh; [simpl; lia|].
  cbn [bind_names]. apply NoDup_cons in Hnd as [Hc Hnd].
  rewrite IH; [|done|].
  - rewrite map_size_insert_None by apply Hfresh, list_elem_of_here.
    cbn [length]. lia.
  - intros c' Hc'. rewrite lookup_insert_ne; [by apply Hfresh, list_elem_of_further|].
    intros Heq. apply Hc. rewrite Heq. by apply list_elem_of_fmap_2.
Qed.

Lemma NewLmdb_databases_size config w l err w' :
  NewLmdb config w = Done (Some l, err) w' →
  NoDup (DbConfig.DbName <$> LmdbEnvConfig.Databases config) →
  size (LmdbEnv.databases l) = length (LmdbEnvConfig.Databases config).
Proof.
  intros Hnew Hnd. apply NewLmdb_inv in Hnew. cbv zeta in Hnew.
  destruct Hnew as (_ & _ & w1 & Hloop & _).
  apply create_databases_ok in Hloop; [|done].
  destruct Hloop as (_ & _ & _ & _ & _ & _ & -> & _).
  cbn [LmdbEnv.databases]. rewrite bind_names_size; [by rewrite map_size_empty|done|].
  intros c _. apply lookup_empty.
Qed.

(** ** The updater goroutine *)

Lemma elem_of_list_insert_inv {A} (l : list A) i x y :
  x ∈ <[i := y]> l → x = y ∨ x ∈ l.
Proof.
  intros [j Hj]%list_elem_of_lookup.
  apply list_lookup_insert_Some in Hj as [(_ & -> & _)|[_ Hj]]; [by left|].
  right. apply list_elem_of_lookup. by exists j.
Qed.

(** With the updater waiting in its select, a call of [UpdateTxn] is
    served: the goroutines can run the request to its reply, and what the
    caller gets and the world it leaves are those of the function
    [UpdateTxn]. *)
Lemma UpdateTxn_served l st s op err w' :
  Sched.wpc st = Sched.AtSelect →
  worker (Sched.world st) = Some (LmdbEnv.updateWorkerChan l, LmdbEnv.quitChan l) →
  UpdateTxn s op (Sched.world st) = Done err w' →
  rtc (Sched.step l) st
      (Sched.mkState w' Sched.AtSelect
                     (Sched.callers st ++ [Sched.Returned err])
                     (Sched.received st ++ [op]) (Sched.executed st ++ [op])
                     (Sched.write_txns st)).
Proof.
  intros Hpc Hworker. unfold UpdateTxn, bind.
  destruct (make_chan (Sched.world st)) as [res w1| |] eqn:Hmk; try done.
  assert (Hw1 : worker w1 = worker (Sched.world st) ∧ res = Some (chans (Sched.world st))).
  { unfold make_chan in Hmk. by injection Hmk as <- <-. }
  destruct Hw1 as [Hw1 ->]. rewrite Hw1, Hworker.
  destruct (Db.updateWorkerChan s) as [c|] eqn:Hc; [|done].
  destruct (LmdbEnv.updateWorkerChan l) as [c'|] eqn:Hc'; [|done].
  case_decide as Heq; [subst c'|done].
  destruct (UpdateLocked op (set_worker None w1)) as [err' w2| |] eqn:Hrun; try done.
  intros [= <- <-].
  set (r := chans (Sched.world st)) in *.
  eapply rtc_l. { eapply (Sched.call_UpdateTxn l st s op); exact Hmk. }
  rewrite Hc.
  eapply rtc_l.
  { eapply (Sched.recv_op l _ (length (Sched.callers st)) c op (Some r)); [done|done|].
    cbn. by apply list_lookup_middle. }
  cbn. rewrite insert_app_r_alt, Nat.sub_diag by done. cbn.
  eapply rtc_l. { by eapply Sched.txn_begin. }
  cbn.
  eapply rtc_l. { eapply Sched.txn_end; [done|exact Hrun]. }
  cbn.
  eapply rtc_l.
  { eapply (Sched.reply l _ (length (Sched.callers st)) r err'); [done|].
    cbn. by apply list_lookup_middle. }
  cbn. rewrite insert_app_r_alt, Nat.sub_diag by done. cbn. rewrite Hc'.
  apply rtc_refl.
Qed.

(** C4. In every state the goroutines can reach: the requests whose
    transaction has ended are, in order, the first requests the updater
    received, followed by at most the one it holds; a write transaction is
    open on the environment only while the updater is inside
    [UpdateLocked], so never two at a time; the request the updater holds
    is the one it runs next, to its end, when [UpdateLocked] returns; and
    no step ends a transaction but the updater's, on the request it holds,
    with the result of [UpdateLocked] on the world of that moment. *)
Theorem updater_serves_in_order l w st :
  Sched.reachable l w st →
  Sched.received st = (Sched.executed st ++ Sched.in_flight (Sched.wpc st))%list
  ∧ (length (Sched.in_flight (Sched.wpc st)) ≤ 1)%nat
  ∧ Sched.write_txns st = (if Sched.in_txn (Sched.wpc st) then 1 else 0)
  ∧ (Sched.write_txns st ≤ 1)%nat
  ∧ (∀ op res err w',
       Sched.wpc st = Sched.GotOp op res ∨ Sched.wpc st = Sched.InTxn op res →
       UpdateLocked op (Sched.world st) = Done err w' →
       rtc (Sched.step l) st
           (Sched.mkState w' (Sched.Replying err res) (Sched.callers st)
                          (Sched.received st) (Sched.executed st ++ [op]) 0))
  ∧ (∀ st',
       Sched.step l st st' →
       Sched.executed st' = Sched.executed st
       ∨ ∃ op res err,
           Sched.wpc st = Sched.InTxn op res
           ∧ Sched.write_txns st = 1
           ∧ UpdateLocked op (Sched.world st) = Done err (Sched.world st')
           ∧ Sched.wpc st' = Sched.Replying err res
           ∧ Sched.executed st' = (Sched.executed st ++ [op])%list
           ∧ Sched.received st' = Sched.received st).
Proof.
  intros Hreach.
  assert (Hinv : Sched.received st
                 = (Sched.executed st ++ Sched.in_flight (Sched.wpc st))%list
                 ∧ Sched.write_txns st = (if Sched.in_txn (Sched.wpc st) then 1 else 0)).
  { revert st Hreach. unfold Sched.reachable. apply rtc_ind_r; [done|].
    intros st st' _ Hstep (Hrecv & Htx).
    destruct Hstep as [st s op res w' Hmk|st|st i c op res Hpc _ _|st i q Hpc _ _
                      |st op res Hpc|st op res err w' Hpc _|st op res Hpc _
                      |st i r err Hpc _|st Hpc|st Hpc|st Hpc];
      cbn [Sched.received Sched.executed Sched.wpc Sched.write_txns];
      try (rewrite Hpc in Hrecv, Htx; cbn [Sched.in_flight Sched.in_txn] in Hrecv, Htx);
      rewrite ?app_nil_r in Hrecv;
      split;
      cbn [Sched.in_flight Sched.in_txn];
      rewrite ?Htx, ?Hrecv, ?app_nil_r, <- ?(assoc_L (++)); done. }
  destruct Hinv as [Hrecv Htx].
  split_and!.
  - done.
  - destruct (Sched.wpc st); cbn; lia.
  - done.
  - rewrite Htx. destruct (Sched.in_txn (Sched.wpc st)); lia.
  - intros op res err w' [Hpc|Hpc] Hrun; rewrite Hpc in Htx; cbn in Htx.
    + eapply rtc_l. { by eapply Sched.txn_begin. }
      eapply rtc_l. { eapply Sched.txn_end; [done|exact Hrun]. }
      cbn. rewrite Htx. apply rtc_refl.
    + eapply rtc_l. { eapply Sched.txn_end; [done|exact Hrun]. }
      cbn. rewrite Htx. apply rtc_refl.
  - intros st' Hstep.
    destruct Hstep as [st s op res w' Hmk|st|st i c op res Hpc _ _|st i q Hpc _ _
                      |st op res Hpc|st op res err w' Hpc Hrun|st op res Hpc _
                      |st i r err Hpc _|st Hpc|st Hpc|st Hpc];
      cbn [Sched.executed]; try (by left).
    right. exists op, res, err. rewrite Hpc in Htx. by split_and!.
Qed.

Lemma updater_serves_in_order_witness :
  Sched.reachable handler1 world1 sched2
  ∧ Sched.received sched2 = (Sched.executed sched2 ++ [request2])%list
  ∧ (length [request2] ≤ 1)%nat
  ∧ Sched.write_txns sched2 = 1
  ∧ (Sched.write_txns sched2 ≤ 1)%nat
  ∧ (∀ op res err w',
       Sched.wpc sched2 = Sched.GotOp op res ∨ Sched.wpc sched2 = Sched.InTxn op res →
       UpdateLocked op (Sched.world sched2) = Done err w' →
       rtc (Sched.step handler1) sched2
           (Sched.mkState w' (Sched.Replying err res) (Sched.callers sched2)
                          (Sched.received sched2) (Sched.executed sched2 ++ [op]) 0))
  ∧ (∀ st',
       Sched.step handler1 sched2 st' →
       Sched.executed st' = Sched.executed sched2
       ∨ ∃ op res err,
           Sched.wpc sched2 = Sched.InTxn op res
           ∧ Sched.write_txns sched2 = 1
           ∧ UpdateLocked op (Sched.world sched2) = Done err (Sched.world st')
           ∧ Sched.wpc st' = Sched.Replying err res
           ∧ Sched.executed st' = (Sched.executed sched2 ++ [op])%list
           ∧ Sched.received st' = Sched.received sched2).
Proof.
  assert (H : Sched.reachable handler1 world1 sched2).
  { unfold Sched.reachable.
    etrans.
    { apply (UpdateTxn_served handler1 (Sched.init world1) db1 request1 None world2);
        [reflexivity|reflexivity|vm_compute; reflexivity]. }
    eapply rtc_l.
    { eapply (Sched.call_UpdateTxn handler1 _ db1 request2). reflexivity. }
    eapply rtc_l.
    { eapply (Sched.recv_op handler1 _ 1 0 request2 (Some (chans world2)));
        reflexivity. }
    eapply rtc_l.
    { eapply (Sched.txn_begin handler1 _ request2 (Some (chans world2))). reflexivity. }
    apply rtc_refl. }
  split; [exact H|]. exact (updater_serves_in_order handler1 world1 sched2 H).
Defined.

(** Two calls served one after the other: both transactions have run,
    in the order the updater received them, and the key holds what the
    second stored. *)
Example two_requests_in_order :
  ∃ w, rtc (Sched.step handler1) (Sched.init world1)
           (Sched.mkState w Sched.AtSelect [Sched.Returned None; Sched.Returned None]
                          [request1; request2] [request1; request2] 0)
       ∧ mdb_get (engine w) (Db.dbi db1) key_k1 = ([Byte.x09], None).
Proof.
  exists (world_after (UpdateTxn db1 request2) world2). split; [|by vm_compute].
  etrans.
  { apply (UpdateTxn_served handler1 (Sched.init world1) db1 request1 None world2);
      [reflexivity|reflexivity|vm_compute; reflexivity]. }
  apply (UpdateTxn_served handler1
           (Sched.mkState world2 Sched.AtSelect [Sched.Returned None]
                          [request1] [request1] 0)
           db1 request2 None (world_after (UpdateTxn db1 request2) world2));
    [reflexivity|reflexivity|vm_compute; reflexivity].
Qed.

(** While [quitChan] is nil the updater never enters its quit case and no
    call of [Close] returns. *)
Lemma nil_quitChan_never_quits l w st :
  LmdbEnv.quitChan l = None →
  Sched.reachable l w st →
  Sched.in_quit_case (Sched.wpc st) = false
  ∧ Sched.CloseReturned ∉ Sched.callers st.
Proof.
  intros Hnil. unfold Sched.reachable. revert st. apply rtc_ind_r.
  { split; [done|]. cbn. apply not_elem_of_nil. }
  intros st st' _ Hstep [Hpc Hcallers].
  destruct Hstep; cbn [Sched.wpc Sched.callers Sched.in_quit_case];
    try congruence;
    try match goal with H : Sched.wpc _ = _ |- _ =>
          rewrite H in Hpc; cbn in Hpc; try discriminate end;
    (split; [done|]);
    try done;
    intros Hin;
    try (apply elem_of_app in Hin as [Hin|Hin%list_elem_of_singleton]; by try done);
    try (apply elem_of_list_insert_inv in Hin as [Hin|Hin]; by try done).
Qed.

(** The quit case itself works: had [quitChan] been made, a call of
    [Close] would return and the updater would flush and close the
    environment; after that it is back in its select, as the loop has no
    return. *)
Lemma made_quitChan_quits l w q :
  LmdbEnv.quitChan l = Some q →
  Sched.reachable l w
    (Sched.mkState
       (set_worker (Some (LmdbEnv.updateWorkerChan l, LmdbEnv.quitChan l))
                   (Sched.set_closed (Sched.set_synced (set_worker None w))))
       Sched.AtSelect [Sched.CloseReturned] [] [] 0).
Proof.
  intros Hq. unfold Sched.reachable.
  eapply rtc_l. { apply Sched.call_Close. }
  cbn. rewrite Hq.
  eapply rtc_l. { by eapply (Sched.recv_quit l _ 0 q). }
  cbn.
  eapply rtc_l. { by eapply Sched.quit_sync. }
  eapply rtc_l. { by eapply Sched.quit_close. }
  eapply rtc_l. { by eapply Sched.quit_unlock. }
  cbn. rewrite Hq. apply rtc_refl.
Qed.

(** C2. For every handler [NewLmdb] returns, [quitChan] is nil.  So the
    send in [Close] blocks for ever: the function [Close] never returns,
    and in no state the goroutines can reach has a call of [Close]
    returned or has the updater entered its quit case, where it would
    flush and close the environment. *)
Theorem Close_never_returns config w l err w' :
  NewLmdb config w = Done (Some l, err) w' →
  LmdbEnv.quitChan l = None
  ∧ (∀ w2, Close l w2 = Blocked)
  ∧ ∀ st, Sched.reachable l w' st →
      Sched.in_quit_case (Sched.wpc st) = false
      ∧ Sched.CloseReturned ∉ Sched.callers st.
Proof.
  intros Hnew. apply NewLmdb_inv in Hnew. cbv zeta in Hnew.
  destruct Hnew as (_ & _ & w1 & Hloop & _).
  apply create_databases_ok in Hloop; [|done].
  destruct Hloop as (_ & _ & _ & Hq & _). cbn in Hq.
  split_and!; [done| |].
  - intros w2. unfold Close. by rewrite Hq.
  - intros st. by apply nil_quitChan_never_quits.
Qed.

Lemma Close_never_returns_witness :
  NewLmdb default_config world0 = Done (Some handler1, None) world1
  ∧ LmdbEnv.quitChan handler1 = None
  ∧ (∀ w2, Close handler1 w2 = Blocked)
  ∧ ∀ st, Sched.reachable handler1 world1 st →
      Sched.in_quit_case (Sched.wpc st) = false
      ∧ Sched.CloseReturned ∉ Sched.callers st.
Proof.
  assert (H : NewLmdb default_config world0 = Done (Some handler1, None) world1)
    by (vm_compute; reflexivity).
  split; [exact H|].
  exact (Close_never_returns default_config world0 handler1 None world1 H).
Defined.

(** * Further properties of the package *)

(** ** What a write does to the environment *)

Lemma mdb_put_other e d key val e' err d' key' :
  mdb_put e d key val = (e', err) →
  (d', key') ≠ (d, key) →
  mdb_get e' d' key' = mdb_get e d' key'.
Proof.
  unfold mdb_put, mdb_get. destruct (tables e !! d) as [t|] eqn:Ht.
  - destruct (negb (key_ok key && val_ok val)); intros [= <- <-] Hne; [done|]. simpl.
    destruct (decide (d = d')) as [<-|Hd].
    + rewrite lookup_insert_eq, Ht. rewrite lookup_insert_ne; [done|congruence].
    + by rewrite lookup_insert_ne.
  - by intros [= <- <-].
Qed.

Lemma mdb_del_other e d key val e' err d' key' :
  mdb_del e d key val = (e', err) →
  (d', key') ≠ (d, key) →
  mdb_get e' d' key' = mdb_get e d' key'.
Proof.
  unfold mdb_del, mdb_get. destruct (tables e !! d) as [t|] eqn:Ht.
  - destruct (length key =? 0)%nat; [by intros [= <- <-]|].
    destruct (t !! key) eqn:Hk; intros [= <- <-] Hne; [|done]. simpl.
    destruct (decide (d = d')) as [<-|Hd].
    + rewrite lookup_insert_eq, Ht. rewrite lookup_delete_ne; [done|congruence].
    + by rewrite lookup_insert_ne.
  - by intros [= <- <-].
Qed.

(** What the transaction function of [Put] leaves in the engine. *)
Lemma Put_op_engine s key v w err w2 :
  Put_op s key v w = Done err w2 →
  engine w2 = engine w
  ∨ ∃ b e, mdb_put (engine w) (Db.dbi s) key b = (engine w2, e).
Proof.
  assert (Hput : ∀ b w0, txn_Put (Db.dbi s) key b 0 w0 = Done err w2 →
                 engine w2 = engine w0
                 ∨ ∃ e, mdb_put (engine w0) (Db.dbi s) key b = (engine w2, e)).
  { intros b w0 H%txn_Put_Done. destruct err as [e|].
    - left. by subst.
    - destruct H as (e' & Hp & _ & ->). right. by exists None. }
  unfold Put_op.
  destruct v as [|b|z|str|fs];
    try (intros [H|[e H]]%Hput; [by left|right; by exists b, e]);
    (unfold call_marshal; destruct (Db.marshal s) as [f|]; [|done];
     unfold log, bind, ret; simpl;
     match goal with |- context [f ?v] =>
       destruct (f v) as [b [e|]] eqn:Hf; simpl;
       [intros [= <- <-]; by left
       |intros [H|[e' H]]%Hput; [by left|right; by exists b, e']]
     end).
Qed.

(** [txn.Put] of a key and a value the engine accepts. *)
Lemma txn_Put_accepted d key b fl w t :
  tables (engine w) !! d = Some t →
  key_ok key = true →
  val_ok b = true →
  f_Put (faults w) d key b = None →
  txn_Put d key b fl w
  = Done None (set_engine (mkEngine (names (engine w))
                                    (<[d := <[key := b]> t]> (tables (engine w)))
                                    (synced (engine w)) (closed (engine w))) w).
Proof.
  intros Ht Hk Hv Hf. unfold txn_Put, get_engine, bind, ret, mdb_put.
  rewrite Ht, Hk, Hv. simpl. by rewrite Hf.
Qed.


(** A [Put] of another value through a usable handle whose [marshal]
    succeeds with bytes the engine accepts. *)
Lemma Put_marshal_ok s key v w f b :
  handle_ok w s = true →
  (∀ raw, v ≠ VBytes raw) →
  Db.marshal s = Some f →
  f v = (b, None) →
  key_ok key = true →
  val_ok b = true →
  f_Put (faults w) (Db.dbi s) key b = None →
  ∃ w1, Put s key v w = Done None w1
        ∧ mdb_get (engine w1) (Db.dbi s) key = (b, None).
Proof.
  intros Hok Hv Hf Hb Hk Hvb Hfp. unfold Put. rewrite (UpdateTxn_served_eq _ _ _ Hok).
  pose proof Hok as (_ & [t Ht] & _)%handle_ok_inv.
  unfold Put_op.
  destruct v as [|raw|z|str|fs]; try (by destruct (Hv raw));
    unfold call_marshal, log, bind, ret; rewrite Hf; simpl; rewrite Hb; simpl;
    (erewrite txn_Put_accepted; [|exact Ht|done..]);
    (eexists; split; [done|]);
    unfold mdb_get; simpl;
    by rewrite lookup_insert_eq, (key_ok_nonempty _ Hk), lookup_insert_eq.
Qed.

(** X1. A read of a key the engine cannot find: [Get] and
    [GetAndMarshal] return the engine's error as it is, the destination
    and the world are untouched, and [s.unmarshal] is not called (a nil
    one does no harm); neither needs the updater. *)
Theorem reads_return_lookup_error s key dest w e bOri :
  mdb_get (engine w) (Db.dbi s) key = (bOri, Some e) →
  Get s key w = Done ([], Some e) w
  ∧ GetAndMarshal s key dest w = Done (dest, Some e) w.
Proof.
  intros Hget. split.
  - by rewrite Get_spec, Hget.
  - unfold GetAndMarshal. unfold_m. simpl. rewrite Hget. simpl.
    by rewrite set_engine_id.
Qed.

Lemma reads_return_lookup_error_witness :
  mdb_get (engine world1) (Db.dbi db1) key_k1 = ([], Some (OpError "mdb_get" NotFound))
  ∧ Get db1 key_k1 world1 = Done ([], Some (OpError "mdb_get" NotFound)) world1
  ∧ GetAndMarshal db1 key_k1 VNil world1
    = Done (VNil, Some (OpError "mdb_get" NotFound)) world1.
Proof.
  assert (H : mdb_get (engine world1) (Db.dbi db1) key_k1
              = ([], Some (OpError "mdb_get" NotFound))) by (vm_compute; reflexivity).
  split; [exact H|].
  exact (reads_return_lookup_error db1 key_k1 VNil world1 _ _ H).
Defined.

(** X2. What [Put] encoded is what [GetAndMarshal] decodes: when [Put]
    of a value that is not a [[]byte] has returned nil and [s.marshal]
    gave the non-empty bytes [b], [GetAndMarshal] calls [s.unmarshal] once,
    on a copy of [b], and returns its result and its error. *)
Theorem Put_then_GetAndMarshal s key v w w1 dest fm fu b :
  (∀ raw, v ≠ VBytes raw) →
  Db.marshal s = Some fm →
  Db.unmarshal s = Some fu →
  fm v = (b, None) →
  b ≠ [] →
  Put s key v w = Done None w1 →
  GetAndMarshal s key dest w1 = Done (fu b dest) (emit (EvUnmarshal b) w1).
Proof.
  intros Hv Hfm Hfu Hb Hne HPut.
  destruct (Put_stored _ _ _ _ _ HPut) as (stored & Hget & Hst).
  assert (stored = b) as ->.
  { destruct v as [|raw|z|str|fs]; try (by destruct (Hv raw));
      destruct Hst as (f & Hf & Hfv); congruence. }
  by apply GetAndMarshal_nonempty.
Qed.

Lemma Put_then_GetAndMarshal_witness :
  GetAndMarshal db1 key_k1 VNil (world_after (Put db1 key_k1 (VString "hi")) world1)
  = Done (VString "hi", None)
         (emit (EvUnmarshal (String.list_byte_of_string "hi"))
               (world_after (Put db1 key_k1 (VString "hi")) world1)).
Proof.
  apply (Put_then_GetAndMarshal db1 key_k1 (VString "hi") world1 _ VNil
           text_marshal text_unmarshal (String.list_byte_of_string "hi")).
  - intros raw. discriminate.
  - reflexivity.
  - reflexivity.
  - reflexivity.
  - discriminate.
  - vm_compute. reflexivity.
Defined.



(** The engine refuses [Put] under the empty key and under a key of 512
    bytes, and stores nothing. *)
Example Put_refuses_bad_keys :
  (∃ w1, Put db1 [] (VBytes blob123) world1
         = Done (Some (OpError "mdb_put" BadValSize)) w1
         ∧ engine w1 = engine world1)
  ∧ (∃ w1, Put db1 (make 512) (VBytes blob123) world1
           = Done (Some (OpError "mdb_put" BadValSize)) w1
           ∧ engine w1 = engine world1).
Proof. split; eexists; by vm_compute. Qed.

(** X4. When [s.marshal] fails, [Put] returns its error as it is and
    stores nothing: the environment is as before the call. *)
Theorem Put_marshal_error_stores_nothing s key v w f b e :
  handle_ok w s = true →
  (∀ raw, v ≠ VBytes raw) →
  Db.marshal s = Some f →
  f v = (b, Some e) →
  ∃ w1, Put s key v w = Done (Some e) w1
        ∧ engine w1 = engine w
        ∧ trace w1 = (trace w ++ [EvMarshal v])%list.
Proof.
  intros Hok Hv Hf Hb. unfold Put. rewrite (UpdateTxn_served_eq _ _ _ Hok).
  unfold UpdateLocked, Put_op.
  destruct v as [|raw|z|str|fs]; try (by destruct (Hv raw));
    unfold_m; rewrite Hf; simpl; rewrite Hb; simpl; by eexists.
Qed.

Lemma Put_marshal_error_stores_nothing_witness :
  handle_ok world2 db_failing = true
  ∧ ∃ w1, Put db_failing key_k1 (VInt 7) world2
          = Done (Some (errors_New "cannot encode")) w1
          ∧ engine w1 = engine world2
          ∧ trace w1 = (trace world2 ++ [EvMarshal (VInt 7)])%list.
Proof.
  assert (H : handle_ok world2 db_failing = true) by (vm_compute; reflexivity).
  split; [exact H|].
  apply (Put_marshal_error_stores_nothing db_failing key_k1 (VInt 7) world2
           failing_marshal [] (errors_New "cannot encode") H).
  - intros raw. discriminate.
  - reflexivity.
  - reflexivity.
Defined.

(** X5. [Put] on a key changes nothing else: every other key of the
    database, and every key of every other database, reads as before,
    whether [Put] returned nil or an error. *)
Theorem Put_changes_one_key s key v w err w1 d' key' :
  Put s key v w = Done err w1 →
  (d', key') ≠ (Db.dbi s, key) →
  mdb_get (engine w1) d' key' = mdb_get (engine w) d' key'.
Proof.
  intros (_ & w2 & Hop & ->)%UpdateTxn_inv Hne.
  destruct err as [e|]; [done|]. cbn [set_worker engine].
  apply Put_op_engine in Hop as [Heq|(b & e & Hput)];
    cbn [with_reply_chan engine] in *; [by rewrite Heq|].
  by eapply mdb_put_other.
Qed.

Lemma Put_changes_one_key_witness :
  Put db1 key_k2 (VBytes [Byte.x09]) world2
  = Done None (world_after (Put db1 key_k2 (VBytes [Byte.x09])) world2)
  ∧ (Db.dbi db1, key_k1) ≠ (Db.dbi db1, key_k2)
  ∧ mdb_get (engine (world_after (Put db1 key_k2 (VBytes [Byte.x09])) world2))
            (Db.dbi db1) key_k1
    = mdb_get (engine world2) (Db.dbi db1) key_k1.
Proof.
  assert (H1 : Put db1 key_k2 (VBytes [Byte.x09]) world2
               = Done None (world_after (Put db1 key_k2 (VBytes [Byte.x09])) world2))
    by (vm_compute; reflexivity).
  assert (H2 : (Db.dbi db1, key_k1) ≠ (Db.dbi db1, key_k2)) by discriminate.
  split_and!; [exact H1|exact H2|].
  exact (Put_changes_one_key db1 key_k2 (VBytes [Byte.x09]) world2 None _ _ _ H1 H2).
Defined.

(** X6. [Del] of a key changes nothing else. *)
Theorem Del_changes_one_key s key w err w1 d' key' :
  Del s key w = Done err w1 →
  (d', key') ≠ (Db.dbi s, key) →
  mdb_get (engine w1) d' key' = mdb_get (engine w) d' key'.
Proof.
  intros (_ & w2 & Hop & ->)%UpdateTxn_inv Hne.
  destruct err as [e|]; [done|]. cbn [set_worker engine].
  revert Hop. unfold txn_Del, get_engine, put_engine, bind, ret. cbn [with_reply_chan engine].
  destruct (mdb_del (engine w) (Db.dbi s) key zeroLengthBytes) as [e' err] eqn:Hdel.
  intros [= -> <-]. simpl. by eapply mdb_del_other.
Qed.

Lemma Del_changes_one_key_witness :
  Del db1 key_k2 (world_after (Put db1 key_k2 (VBytes [Byte.x09])) world2)
  = Done None (world_after (Del db1 key_k2)
                 (world_after (Put db1 key_k2 (VBytes [Byte.x09])) world2))
  ∧ (Db.dbi db1, key_k1) ≠ (Db.dbi db1, key_k2)
  ∧ mdb_get (engine (world_after (Del db1 key_k2)
                       (world_after (Put db1 key_k2 (VBytes [Byte.x09])) world2)))
            (Db.dbi db1) key_k1
    = mdb_get (engine (world_after (Put db1 key_k2 (VBytes [Byte.x09])) world2))
              (Db.dbi db1) key_k1.
Proof.
  assert (H1 : Del db1 key_k2 (world_after (Put db1 key_k2 (VBytes [Byte.x09])) world2)
               = Done None (world_after (Del db1 key_k2)
                              (world_after (Put db1 key_k2 (VBytes [Byte.x09])) world2)))
    by (vm_compute; reflexivity).
  assert (H2 : (Db.dbi db1, key_k1) ≠ (Db.dbi db1, key_k2)) by discriminate.
  split_and!; [exact H1|exact H2|].
  exact (Del_changes_one_key db1 key_k2 _ None _ _ _ H1 H2).
Defined.



(** After [Drop] the key that was stored is gone, and a [Put] stores
    again. *)
Example Drop_then_Put :
  mdb_get (engine world2) (Db.dbi db1) key_k1 = (blob123, None)
  ∧ Get db1 key_k1 (world_after (Drop db1) world2)
    = Done ([], Some (OpError "mdb_get" NotFound)) (world_after (Drop db1) world2)
  ∧ mdb_get (engine (world_after (Put db1 key_k2 (VBytes [Byte.x09]))
                                 (world_after (Drop db1) world2)))
            (Db.dbi db1) key_k2 = ([Byte.x09], None).
Proof. by vm_compute. Qed.

(** X8. A transaction function that returns an error is aborted:
    [UpdateTxn] returns that very error and the environment is as before
    the call, whatever the function had written. *)
Theorem UpdateTxn_error_aborts s op w e w1 :
  UpdateTxn s op w = Done (Some e) w1 →
  engine w1 = engine w
  ∧ ∃ w2, op (with_reply_chan w) = Done (Some e) w2.
Proof.
  intros (_ & w2 & Hop & ->)%UpdateTxn_inv. split; [done|by exists w2].
Qed.



Lemma UpdateTxn_error_aborts_witness :
  UpdateTxn db1 rollback_op world2
  = Done (Some (errors_New "rollback")) (world_after (UpdateTxn db1 rollback_op) world2)
  ∧ engine (world_after (UpdateTxn db1 rollback_op) world2) = engine world2
  ∧ ∃ w2, rollback_op (with_reply_chan world2) = Done (Some (errors_New "rollback")) w2.
Proof.
  assert (H : UpdateTxn db1 rollback_op world2
              = Done (Some (errors_New "rollback"))
                     (world_after (UpdateTxn db1 rollback_op) world2))
    by (vm_compute; reflexivity).
  split; [exact H|].
  exact (UpdateTxn_error_aborts db1 rollback_op world2 _ _ H).
Defined.

(** ** How [NewLmdb] ends *)

Lemma mdb_dbi_open_names e name n :
  n = name ∨ is_Some (names e !! n) →
  is_Some (names (mdb_dbi_open e name).1 !! n).
Proof.
  unfold mdb_dbi_open. destruct (names e !! name) eqn:Hname; simpl.
  - intros [->|Hn]; [by rewrite Hname|done].
  - intros [->|Hn]; [rewrite lookup_insert_eq; by eexists|].
    destruct (decide (name = n)) as [->|Hne]; [rewrite lookup_insert_eq; by eexists|].
    by rewrite lookup_insert_ne.
Qed.

(** The loop always returns: a handler and no error, or no handler and an
    error; it starts no goroutine and makes no channel, and a database the
    environment has, it keeps. *)
Lemma create_databases_total dbs : ∀ lmdbEnv h w,
  closed (engine w) = false →
  ∃ r w', create_databases lmdbEnv h dbs w = Done r w'
          ∧ worker w' = worker w
          ∧ chans w' = chans w
          ∧ (∀ n, is_Some (names (engine w) !! n) → is_Some (names (engine w') !! n))
          ∧ ((∃ h', r = (Some h', None)) ∨ (∃ e, r = (None, Some e))).
Proof.
  induction dbs as [|c rest IH]; intros lmdbEnv h w Hcl.
  - eexists _, _. split_and!; [done..|]. left. by eexists.
  - rewrite create_databases_cons by done. cbv zeta.
    destruct (f_CreateDBI (faults w) (DbConfig.DbName c)).
    + eexists _, _. split_and!; [done..|]. right. by eexists.
    + match goal with |- context [create_databases ?e ?h ?d ?w0] =>
        destruct (IH e h w0) as (r & w' & -> & Hw & Hc & Hn & Hr) end.
      { cbn [engine]. by rewrite mdb_dbi_open_closed. }
      exists r, w'. split_and!; try done.
      intros n Hin. apply Hn. cbn [engine]. apply mdb_dbi_open_names. by right.
Qed.

(** X10. [NewLmdb] always returns (it neither panics nor blocks), with
    a handler and a nil error or with a nil handler and an error.  With a
    handler, the updater goroutine runs on the handler's two channels;
    with an error, no goroutine was started. *)
Theorem NewLmdb_outcome config w :
  ∃ r w', NewLmdb config w = Done r w'
          ∧ ((∃ l, r = (Some l, None)
                   ∧ worker w' = Some (LmdbEnv.updateWorkerChan l, LmdbEnv.quitChan l))
             ∨ (∃ e, r = (None, Some e) ∧ worker w' = worker w)).
Proof.
  unfold NewLmdb.
  destruct (length (LmdbEnvConfig.Databases config) <? 1)%nat.
  { eexists _, _. split; [done|]. right. by eexists. }
  unfold lmdb_NewEnv, Env_SetMapSize, Env_SetMaxDBs, Env_SetMaxReaders, Env_Open,
    env_call, make_chan, go_worker, log, get_engine, put_engine, set_engine, bind, ret, emit.
  cbn [faults engine heap chans worker trace fst snd].
  destruct (f_NewEnv (faults w)); cbn.
  { eexists _, _. split; [done|]. right. by eexists. }
  destruct (f_SetMapSize (faults w) _); cbn.
  { eexists _, _. split; [done|]. right. by eexists. }
  destruct (f_SetMaxDBs (faults w) _); cbn.
  { eexists _, _. split; [done|]. right. by eexists. }
  destruct (f_SetMaxReaders (faults w) _); cbn.
  { eexists _, _. split; [done|]. right. by eexists. }
  destruct (f_Open (faults w) _ _ _); cbn.
  { eexists _, _. split; [done|]. right. by eexists. }
  match goal with |- context [create_databases ?env0 ?h0 ?d0 ?w0] =>
    destruct (create_databases_total d0 env0 h0 w0)
      as (r & w' & -> & Hw & _ & _ & [[h' ->]|[e ->]]) end; [done|..].
  - eexists _, _. split; [done|]. left. by eexists.
  - eexists _, _. split; [done|]. right. by eexists.
Qed.

(** X11. When the engine refuses one of the five set-up calls,
    [NewLmdb] returns the error of the first refused call as it is; the
    environment is as before, no [Db] and no channel was made and no
    goroutine started. *)
Theorem NewLmdb_setup_error config w e :
  LmdbEnvConfig.Databases config ≠ [] →
  first_setup_error (faults w) config = Some e →
  ∃ w', NewLmdb config w = Done (None, Some e) w'
        ∧ engine w' = engine w
        ∧ heap w' = heap w
        ∧ chans w' = chans w
        ∧ worker w' = worker w.
Proof.
  intros Hne. unfold NewLmdb, first_setup_error.
  destruct (length (LmdbEnvConfig.Databases config) <? 1)%nat eqn:Hlen.
  { destruct (LmdbEnvConfig.Databases config); [done|]. by cbn in Hlen. }
  unfold lmdb_NewEnv, Env_SetMapSize, Env_SetMaxDBs, Env_SetMaxReaders, Env_Open,
    env_call, make_chan, go_worker, log, get_engine, put_engine, set_engine, bind, ret, emit.
  cbn [faults engine heap chans worker trace fst snd].
  destruct (f_NewEnv (faults w)); cbn.
  { intros [= <-]. by eexists. }
  destruct (f_SetMapSize (faults w) _); cbn.
  { intros [= <-]. by eexists. }
  destruct (f_SetMaxDBs (faults w) _); cbn.
  { intros [= <-]. by eexists. }
  destruct (f_SetMaxReaders (faults w) _); cbn.
  { intros [= <-]. by eexists. }
  destruct (f_Open (faults w) _ _ _); cbn; [|done].
  intros [= <-]. by eexists.
Qed.

Lemma NewLmdb_setup_error_witness :
  LmdbEnvConfig.Databases default_config ≠ []
  ∧ first_setup_error (faults world_open_refused) default_config
    = Some (OpError "mdb_env_open" (OtherErrno 13))
  ∧ ∃ w', NewLmdb default_config world_open_refused
          = Done (None, Some (OpError "mdb_env_open" (OtherErrno 13))) w'
          ∧ engine w' = engine world_open_refused
          ∧ heap w' = heap world_open_refused
          ∧ chans w' = chans world_open_refused
          ∧ worker w' = worker world_open_refused.
Proof.
  assert (H1 : LmdbEnvConfig.Databases default_config ≠ []) by discriminate.
  assert (H2 : first_setup_error (faults world_open_refused) default_config
               = Some (OpError "mdb_env_open" (OtherErrno 13))) by reflexivity.
  split_and!; [exact H1|exact H2|].
  exact (NewLmdb_setup_error default_config world_open_refused _ H1 H2).
Defined.

(** The loop when the engine refuses to create one database, the ones
    before it having been created. *)
Lemma create_databases_refused pre : ∀ lmdbEnv h w c post errno,
  closed (engine w) = false →
  (∀ c', c' ∈ pre → f_CreateDBI (faults w) (DbConfig.DbName c') = None) →
  f_CreateDBI (faults w) (DbConfig.DbName c) = Some errno →
  ∃ w', create_databases lmdbEnv h (pre ++ c :: post) w
        = Done (None, Some (errors_New ("error creating database "
                                        +:+ DbConfig.DbName c))) w'
        ∧ worker w' = worker w
        ∧ length (heap w') = length (heap w) + length pre + 1
        ∧ (∀ n, is_Some (names (engine w) !! n) → is_Some (names (engine w') !! n))
        ∧ ∀ c', c' ∈ pre → is_Some (names (engine w') !! DbConfig.DbName c').
Proof.
  induction pre as [|c0 rest IH]; intros lmdbEnv h w c post errno Hcl Hpre Hc.
  - cbn [app]. rewrite create_databases_cons by done. cbv zeta. rewrite Hc.
    eexists. split_and!; [done|done| |done|].
    + cbn [heap length]. rewrite length_app. cbn. lia.
    + by intros c' ?%elem_of_nil.
  - cbn [app]. rewrite create_databases_cons by done. cbv zeta.
    rewrite Hpre by apply list_elem_of_here.
    match goal with |- context [create_databases ?env0 ?h0 ?d0 ?w0] =>
      destruct (IH env0 h0 w0 c post errno) as (w' & -> & Hw & Hlen & Hmono & Hin) end.
    { cbn [engine]. by rewrite mdb_dbi_open_closed. }
    { cbn [faults]. intros c' Hc'. by apply Hpre, list_elem_of_further. }
    { done. }
    cbn [worker heap engine] in *. rewrite length_app in Hlen. cbn [length] in *.
    exists w'. split_and!; [done|done|lia| |].
    + intros n Hn. apply Hmono, mdb_dbi_open_names. by right.
    + intros c' [->|Hc']%elem_of_cons; [|by apply Hin].
      apply Hmono, mdb_dbi_open_names. by left.
Qed.

(** X12. When the engine refuses to create one of the configured
    databases, [NewLmdb] returns the error "error creating database
    <name>" for the first such name, not the engine's error.  No goroutine
    is started; the databases before it in the list stay created in the
    environment, and one [Db] per round of the loop stays allocated. *)
Theorem NewLmdb_CreateDBI_error config w pre c post errno :
  first_setup_error (faults w) config = None →
  LmdbEnvConfig.Databases config = (pre ++ c :: post)%list →
  (∀ c', c' ∈ pre → f_CreateDBI (faults w) (DbConfig.DbName c') = None) →
  f_CreateDBI (faults w) (DbConfig.DbName c) = Some errno →
  ∃ w', NewLmdb config w
        = Done (None, Some (errors_New ("error creating database "
                                        +:+ DbConfig.DbName c))) w'
        ∧ worker w' = worker w
        ∧ length (heap w') = length (heap w) + length pre + 1
        ∧ ∀ c', c' ∈ pre → is_Some (names (engine w') !! DbConfig.DbName c').
Proof.
  intros Hsetup Hdbs Hpre Hc. unfold NewLmdb. unfold first_setup_error in Hsetup.
  destruct (length (LmdbEnvConfig.Databases config) <? 1)%nat eqn:Hlen.
  { apply Nat.ltb_lt in Hlen. rewrite Hdbs, length_app in Hlen. cbn in Hlen. lia. }
  unfold lmdb_NewEnv, Env_SetMapSize, Env_SetMaxDBs, Env_SetMaxReaders, Env_Open,
    env_call, make_chan, go_worker, log, get_engine, put_engine, set_engine, bind, ret, emit.
  cbn [faults engine heap chans worker trace fst snd].
  destruct (f_NewEnv (faults w)); [done|]. cbn.
  destruct (f_SetMapSize (faults w) _); [done|]. cbn.
  destruct (f_SetMaxDBs (faults w) _); [done|]. cbn.
  destruct (f_SetMaxReaders (faults w) _); [done|]. cbn.
  destruct (f_Open (faults w) _ _ _); [done|]. cbn.
  rewrite Hdbs.
  match goal with |- context [create_databases ?env0 ?h0 (pre ++ c :: post) ?w0] =>
    destruct (create_databases_refused pre env0 h0 w0 c post errno)
      as (w' & -> & Hw & Hheap & _ & Hin) end; [done..|].
  by exists w'.
Qed.

Lemma NewLmdb_CreateDBI_error_witness :
  ∃ w', NewLmdb two_config world_create_b_refused
        = Done (None, Some (errors_New "error creating database b")) w'
        ∧ worker w' = worker world_create_b_refused
        ∧ length (heap w') = length (heap world_create_b_refused) + 1 + 1
        ∧ ∀ c', c' ∈ [DbConfig.mk "a" None None] →
                is_Some (names (engine w') !! DbConfig.DbName c').
Proof.
  apply (NewLmdb_CreateDBI_error two_config world_create_b_refused
           [DbConfig.mk "a" None None] (DbConfig.mk "b" None None) []
           (OtherErrno 28)).
  - reflexivity.
  - reflexivity.
  - intros c' ->%list_elem_of_singleton. reflexivity.
  - reflexivity.
Defined.

(** X13. In an environment whose names all lead to a table, every
    handle [GetDatabase] returns after a successful [NewLmdb] is usable:
    it is on the heap, the updater receives on its channel and its
    database is open. *)
Theorem NewLmdb_handles_are_usable config w l err w' name p :
  engine_wf (engine w) →
  NewLmdb config w = Done (Some l, err) w' →
  GetDatabase l name = Some p →
  ∃ s, heap w' !! p = Some s ∧ handle_ok w' s = true.
Proof. apply NewLmdb_handle_ok. Qed.

Lemma NewLmdb_handles_are_usable_witness :
  engine_wf (engine world0)
  ∧ NewLmdb two_config world0
    = Done (Some (NewLmdb_handler two_config world0), None) (NewLmdb_world two_config world0)
  ∧ GetDatabase (NewLmdb_handler two_config world0) "b" = Some 1
  ∧ ∃ s, heap (NewLmdb_world two_config world0) !! 1 = Some s
         ∧ handle_ok (NewLmdb_world two_config world0) s = true.
Proof.
  assert (H0 : engine_wf (engine world0)).
  { intros name d H. cbn in H. by rewrite lookup_empty in H. }
  assert (H1 : NewLmdb two_config world0
               = Done (Some (NewLmdb_handler two_config world0), None)
                      (NewLmdb_world two_config world0))
    by (vm_compute; reflexivity).
  assert (H2 : GetDatabase (NewLmdb_handler two_config world0) "b" = Some 1)
    by (vm_compute; reflexivity).
  split_and!; [exact H0|exact H1|exact H2|].
  exact (NewLmdb_handles_are_usable two_config world0 _ None _ "b" 1 H0 H1 H2).
Defined.

(** The map of a handler [NewLmdb] returned. *)
Lemma NewLmdb_databases config w l err w' :
  NewLmdb config w = Done (Some l, err) w' →
  LmdbEnv.databases l = bind_names (length (heap w)) (LmdbEnvConfig.Databases config) ∅.
Proof.
  intros Hnew. apply NewLmdb_inv in Hnew. cbv zeta in Hnew.
  destruct Hnew as (_ & _ & w1 & Hloop & _).
  apply create_databases_ok in Hloop; [|done].
  by destruct Hloop as (_ & _ & _ & _ & _ & _ & -> & _).
Qed.

(** X14. After a successful [NewLmdb], [GetDatabase] returns a handle
    for exactly the names that occur in [Databases], and nil for every
    other name. *)
Theorem GetDatabase_iff_configured config w l err w' name :
  NewLmdb config w = Done (Some l, err) w' →
  (is_Some (GetDatabase l name)
   ↔ ∃ c, c ∈ LmdbEnvConfig.Databases config ∧ DbConfig.DbName c = name)
  ∧ ((∀ c, c ∈ LmdbEnvConfig.Databases config → DbConfig.DbName c ≠ name) →
     GetDatabase l name = None).
Proof.
  intros Hnew.
  assert (Hiff : is_Some (GetDatabase l name)
                 ↔ ∃ c, c ∈ LmdbEnvConfig.Databases config ∧ DbConfig.DbName c = name).
  { split.
    - intros [p Hp].
      destruct (NewLmdb_handles _ _ _ _ _ _ _ Hnew Hp)
        as (_ & _ & _ & k & c & d & Hk & Hname & _).
      exists c. split; [|done]. apply list_elem_of_lookup. by exists k.
    - intros (c & [j Hj]%list_elem_of_lookup & Hname).
      destruct (last_entry_exists _ _ j c Hj Hname) as (k & ck & _ & Hk & Hck & Hlast).
      unfold GetDatabase. rewrite (NewLmdb_databases _ _ _ _ _ Hnew), <- Hck.
      erewrite bind_names_last; [by eexists|done|].
      intros k' c' Hlt Hk'. rewrite Hck. by eapply Hlast. }
  split; [done|]. intros Hno.
  destruct (GetDatabase l name) as [p|] eqn:Hp; [|done].
  destruct (proj1 Hiff) as (c & Hc & Hname); [by eexists|]. by destruct (Hno c).
Qed.

Lemma GetDatabase_iff_configured_witness :
  NewLmdb two_config world0
  = Done (Some (NewLmdb_handler two_config world0), None) (NewLmdb_world two_config world0)
  ∧ (is_Some (GetDatabase (NewLmdb_handler two_config world0) "c")
     ↔ ∃ c, c ∈ LmdbEnvConfig.Databases two_config ∧ DbConfig.DbName c = "c")
  ∧ ((∀ c, c ∈ LmdbEnvConfig.Databases two_config → DbConfig.DbName c ≠ "c") →
     GetDatabase (NewLmdb_handler two_config world0) "c" = None).
Proof.
  assert (H1 : NewLmdb two_config world0
               = Done (Some (NewLmdb_handler two_config world0), None)
                      (NewLmdb_world two_config world0))
    by (vm_compute; reflexivity).
  split; [exact H1|].
  exact (GetDatabase_iff_configured two_config world0 _ None _ "c" H1).
Defined.

(** X15. After a successful [NewLmdb] on pairwise distinct names,
    [GetSingleDatabase] returns the handle of the one database when
    [Databases] has one entry, and its error when it has more. *)
Theorem GetSingleDatabase_after_NewLmdb config w l err w' :
  NewLmdb config w = Done (Some l, err) w' →
  NoDup (DbConfig.DbName <$> LmdbEnvConfig.Databases config) →
  (length (LmdbEnvConfig.Databases config) = 1 →
   GetSingleDatabase l = (Some (length (heap w)), None))
  ∧ (length (LmdbEnvConfig.Databases config) ≠ 1 →
     GetSingleDatabase l
     = (None, Some (errors_New "number of databases configured LmdbEnv is not 1"))).
Proof.
  intros Hnew Hnd.
  pose proof (NewLmdb_databases_size _ _ _ _ _ Hnew Hnd) as Hsize.
  pose proof (NewLmdb_databases _ _ _ _ _ Hnew) as Hdb.
  unfold GetSingleDatabase. rewrite Hsize. split; intros Hlen.
  - rewrite Hlen. cbn [Nat.eqb negb]. rewrite Hdb.
    destruct (LmdbEnvConfig.Databases config) as [|c [|??]]; try done.
    cbn [bind_names]. by rewrite insert_empty, map_to_list_singleton.
  - by destruct (Nat.eqb_spec (length (LmdbEnvConfig.Databases config)) 1).
Qed.

Lemma GetSingleDatabase_after_NewLmdb_witness :
  NewLmdb two_config world0
  = Done (Some (NewLmdb_handler two_config world0), None) (NewLmdb_world two_config world0)
  ∧ NoDup (DbConfig.DbName <$> LmdbEnvConfig.Databases two_config)
  ∧ (length (LmdbEnvConfig.Databases two_config) = 1 →
     GetSingleDatabase (NewLmdb_handler two_config world0)
     = (Some (length (heap world0)), None))
  ∧ (length (LmdbEnvConfig.Databases two_config) ≠ 1 →
     GetSingleDatabase (NewLmdb_handler two_config world0)
     = (None, Some (errors_New "number of databases configured LmdbEnv is not 1"))).
Proof.
  assert (H1 : NewLmdb two_config world0
               = Done (Some (NewLmdb_handler two_config world0), None)
                      (NewLmdb_world two_config world0))
    by (vm_compute; reflexivity).
  assert (H2 : NoDup (DbConfig.DbName <$> LmdbEnvConfig.Databases two_config)).
  { cbn. apply NoDup_cons. split; [by intros ?%list_elem_of_singleton|].
    apply NoDup_singleton. }
  split_and!; [exact H1|exact H2|..];
    apply (GetSingleDatabase_after_NewLmdb two_config world0 _ None _ H1 H2).
Defined.

(** The faults of the engine are those of the start all along. *)
Lemma NewLmdb_faults config w l err w' :
  NewLmdb config w = Done (Some l, err) w' → faults w' = faults w.
Proof.
  intros Hnew. apply NewLmdb_inv in Hnew. cbv zeta in Hnew.
  destruct Hnew as (_ & _ & w1 & Hloop & ->).
  apply create_databases_ok in Hloop; [|done].
  by destruct Hloop as (_ & _ & _ & _ & _ & _ & _ & -> & _).
Qed.

(** X16. The default configuration end to end: when the engine refuses
    nothing, [NewLmdb(DefaultLmdbConfig)] succeeds, [GetSingleDatabase]
    returns its one handle, and for a key of 1 to 511 bytes and a value
    the configured [Marshal] encodes to non-empty bytes [b] the engine
    accepts, [Put] followed by [GetAndMarshal] returns what the configured
    [Unmarshal] makes of [b]. *)
Theorem default_config_scenario m u w key v b dest :
  setup_succeeds (faults w) (DefaultLmdbConfig m u) →
  engine_wf (engine w) →
  (∀ raw, v ≠ VBytes raw) →
  m v = (b, None) →
  b ≠ [] →
  key_ok key = true →
  val_ok b = true →
  (∀ d, f_Put (faults w) d key b = None) →
  ∃ l w1 p s w2,
    NewLmdb (DefaultLmdbConfig m u) w = Done (Some l, None) w1
    ∧ GetSingleDatabase l = (Some p, None)
    ∧ heap w1 !! p = Some s
    ∧ Put s key v w1 = Done None w2
    ∧ GetAndMarshal s key dest w2 = Done (u b dest) (emit (EvUnmarshal b) w2).
Proof.
  intros Hsetup Hwf Hv Hm Hb Hk Hvb Hfp.
  destruct (NewLmdb_succeeds (DefaultLmdbConfig m u) w) as (l & w1 & Hnew); [done..|].
  pose proof (NewLmdb_databases _ _ _ _ _ Hnew) as Hdb. cbn in Hdb.
  rewrite insert_empty in Hdb.
  assert (Hget : GetDatabase l "default" = Some (length (heap w))).
  { unfold GetDatabase. by rewrite Hdb, lookup_singleton_eq. }
  destruct (NewLmdb_handles _ _ _ _ _ _ _ Hnew Hget)
    as (_ & _ & _ & k & c & d & _ & _ & _ & Hs & _).
  destruct (NewLmdb_handle_ok _ _ _ _ _ _ _ Hwf Hnew Hget) as (s & Hs' & Hok).
  assert (Hsm : Db.marshal s = Some m ∧ Db.unmarshal s = Some u).
  { rewrite Hs in Hs'. by injection Hs' as <-. }
  destruct Hsm as [Hsm Hsu].
  destruct (Put_marshal_ok s key v w1 m b Hok Hv Hsm Hm Hk Hvb)
    as (w2 & HPut & Hstored).
  { rewrite (NewLmdb_faults _ _ _ _ _ Hnew). apply Hfp. }
  exists l, w1, (length (heap w)), s, w2. split_and!; [done| |done|done|].
  - unfold GetSingleDatabase. by rewrite Hdb, map_size_singleton, map_to_list_singleton.
  - by apply GetAndMarshal_nonempty.
Qed.

Lemma default_config_scenario_witness :
  ∃ l w1 p s w2,
    NewLmdb (DefaultLmdbConfig text_marshal text_unmarshal) world0 = Done (Some l, None) w1
    ∧ GetSingleDatabase l = (Some p, None)
    ∧ heap w1 !! p = Some s
    ∧ Put s key_k1 (VString "Fortune Cookies") w1 = Done None w2
    ∧ GetAndMarshal s key_k1 VNil w2
      = Done (text_unmarshal (String.list_byte_of_string "Fortune Cookies") VNil)
             (emit (EvUnmarshal (String.list_byte_of_string "Fortune Cookies")) w2).
Proof.
  apply (default_config_scenario text_marshal text_unmarshal world0 key_k1
           (VString "Fortune Cookies")
           (String.list_byte_of_string "Fortune Cookies") VNil).
  - by repeat split.
  - intros name d H. cbn in H. by rewrite lookup_empty in H.
  - intros raw. discriminate.
  - reflexivity.
  - discriminate.
  - reflexivity.
  - reflexivity.
  - intros d. reflexivity.
Defined.

(** ** More on the goroutines *)

(** X17. A call of [UpdateTxn] is served when the updater waits in its
    select on the handler's channels and the function [UpdateTxn] returns
    (so the environment is open and the transaction function makes no
    call of [UpdateTxn] of its own, which would block): the goroutines can
    run from the call to the caller's return, the updater ends back in its
    select with one more request received and executed, and the caller
    has the error and the world the function [UpdateTxn] computes. *)
Theorem UpdateTxn_is_served l st s op err w' :
  Sched.wpc st = Sched.AtSelect →
  worker (Sched.world st) = Some (LmdbEnv.updateWorkerChan l, LmdbEnv.quitChan l) →
  UpdateTxn s op (Sched.world st) = Done err w' →
  rtc (Sched.step l) st
      (Sched.mkState w' Sched.AtSelect
                     (Sched.callers st ++ [Sched.Returned err])
                     (Sched.received st ++ [op]) (Sched.executed st ++ [op])
                     (Sched.write_txns st)).
Proof. apply UpdateTxn_served. Qed.

Lemma UpdateTxn_is_served_witness :
  rtc (Sched.step handler1) (Sched.init world1)
      (Sched.mkState world2 Sched.AtSelect [Sched.Returned None]
                     [request1] [request1] 0).
Proof.
  apply (UpdateTxn_is_served handler1 (Sched.init world1) db1 request1 None world2).
  - reflexivity.
  - reflexivity.
  - vm_compute. reflexivity.
Defined.

(** A transaction function that calls [Put] itself: the inner send finds
    the updater busy with the outer request, so the call never returns;
    and in the goroutines the updater, inside that transaction, has no
    step. *)
Example reentrant_UpdateTxn_blocks :
  UpdateTxn db1 reentrant_op world1 = Blocked
  ∧ UpdateLocked reentrant_op (with_reply_chan world1) = Blocked.
Proof. by vm_compute. Qed.

(** X18. The quit case does not end the loop.  For a handler whose
    [quitChan] is a made channel (one [NewLmdb] never returns), a call of
    [Close] returns once the updater has taken the value; the updater
    then flushes and closes the environment and goes back to its select.
    There it still takes a later [UpdateTxn] request, and dies in
    [UpdateLocked] on the closed environment: the caller is left waiting
    and nothing was executed. *)
Theorem write_after_quit_kills_updater l w c q s op :
  LmdbEnv.updateWorkerChan l = Some c →
  LmdbEnv.quitChan l = Some q →
  Db.updateWorkerChan s = Some c →
  ∃ w',
    closed (engine w') = true
    ∧ synced (engine w') = true
    ∧ UpdateLocked op w' = Panic
    ∧ Sched.reachable l w
        (Sched.mkState w' (Sched.Dead op)
                       [Sched.CloseReturned; Sched.AwaitingRes (Some (chans w))]
                       [op] [] 0).
Proof.
  intros Hc Hq Hs. eexists. split_and!; [| |shelve|].
  3:{ unfold Sched.reachable.
      etrans; [by apply (made_quitChan_quits l w q)|].
      eapply rtc_l. { eapply (Sched.call_UpdateTxn l _ s op). reflexivity. }
      cbn. rewrite Hs.
      eapply rtc_l.
      { eapply (Sched.recv_op l _ 1 c op (Some (chans w))); [done|done|done]. }
      cbn.
      eapply rtc_l. { by eapply Sched.txn_begin. }
      eapply rtc_l. { by eapply Sched.txn_panic. }
      cbn. apply rtc_refl. }
  - done.
  - done.
  Unshelve. done.
Qed.

Lemma write_after_quit_kills_updater_witness :
  ∃ w',
    closed (engine w') = true
    ∧ synced (engine w') = true
    ∧ UpdateLocked request1 w' = Panic
    ∧ Sched.reachable handler_q world_q
        (Sched.mkState w' (Sched.Dead request1)
                       [Sched.CloseReturned; Sched.AwaitingRes (Some (chans world_q))]
                       [request1] [] 0).
Proof.
  apply (write_after_quit_kills_updater handler_q world_q 0 7 db1 request1).
  - reflexivity.
  - reflexivity.
  - reflexivity.
Defined.

Lemma count_app f cs1 cs2 : count f (cs1 ++ cs2) = count f cs1 + count f cs2.
Proof. induction cs1 as [|c cs1 IH]; simpl; [done|]. rewrite IH. lia. Qed.

Lemma count_insert f cs : ∀ i x y,
  cs !! i = Some x →
  count f (<[i := y]> cs) + (if f x then 1 else 0)
  = count f cs + (if f y then 1 else 0).
Proof.
  induction cs as [|c cs IH]; intros [|i] x y Hi; try done; simpl in *.
  - injection Hi as ->. lia.
  - specialize (IH i x y Hi). lia.
Qed.

(** X19. Requests and replies add up in every state the goroutines can
    reach: a caller waits for a reply exactly while the updater holds a
    request (so never two at once), and the calls of [UpdateTxn] that have
    returned are as many as the transactions that have ended, less the one
    whose reply the updater is about to send. *)
Theorem replies_match_transactions l w st :
  Sched.reachable l w st →
  count is_awaiting (Sched.callers st) = (if serving (Sched.wpc st) then 1 else 0)
  ∧ count is_returned (Sched.callers st) + (if replying (Sched.wpc st) then 1 else 0)
    = length (Sched.executed st).
Proof.
  unfold Sched.reachable. revert st. apply rtc_ind_r; [done|].
  intros st st' _ Hstep [Haw Hret].
  destruct Hstep as [st s op res w' Hmk|st|st i c op res Hpc _ Hi|st i q Hpc _ Hi
                    |st op res Hpc|st op res err w' Hpc _|st op res Hpc _
                    |st i r err Hpc Hi|st Hpc|st Hpc|st Hpc];
    cbn [Sched.callers Sched.wpc Sched.executed serving replying];
    try (rewrite Hpc in Haw, Hret; cbn [serving replying] in Haw, Hret);
    rewrite ?count_app, ?length_app; cbn [count is_awaiting is_returned length];
    try match goal with
        | |- context [<[i := ?y]> (Sched.callers st)] =>
            pose proof (count_insert is_awaiting _ _ _ y Hi) as Ha;
            pose proof (count_insert is_returned _ _ _ y Hi) as Hr;
            cbn [is_awaiting is_returned] in Ha, Hr
        end;
    lia.
Qed.

Lemma replies_match_transactions_witness :
  Sched.reachable handler1 world1 sched1
  ∧ count is_awaiting (Sched.callers sched1) = 1
  ∧ count is_returned (Sched.callers sched1) + 0 = length (Sched.executed sched1).
Proof.
  assert (H : Sched.reachable handler1 world1 sched1).
  { unfold Sched.reachable.
    eapply rtc_l.
    { eapply (Sched.call_UpdateTxn handler1 (Sched.init world1) db1 request1).
      reflexivity. }
    eapply rtc_l.
    { eapply (Sched.recv_op handler1 _ 0 0 request1 (Some (chans world1)));
        reflexivity. }
    apply rtc_refl. }
  split; [exact H|]. exact (replies_match_transactions handler1 world1 sched1 H).
Defined.
